(** * echo-whatsapp-server: the multi-session registry of [index.ts]

    A shallow embedding of the session registry, its socket.io and HTTP
    handlers and the callbacks registered on every WhatsApp client, for
    both copies of the server that [index.ts] holds: [V1] is the first
    copy (lines 1-360), [V2] the second (lines 360-600).

    Node runs every callback to completion before it starts the next one,
    so a callback is one function on the server state, and the event loop
    is the iteration of [step] over the callbacks the runtime delivers.
    A promise that the server does not await stays pending in the state
    until the runtime delivers its settlement, as a callback of its own.
    The two routes that [await] the engine do nothing after the [await]
    but build the response, and read nothing of the state there; they are
    one callback each, with the engine's answer as an input.

    Outside the model: request fields and event arguments that are not
    strings, and the inside of [whatsapp-web.js], of which only the order
    "assign [info], then emit [ready]" is used. *)

From stdpp Require Import base list strings.
From Stdlib Require Import ZArith Lia.

Set Default Proof Using "Type".
Set Warnings "-clear-no-such-hyp".

(** ** JavaScript strings *)

Module Js.

(** [s.includes(pat)]: [pat] occurs in [s] at some position. *)
Fixpoint includes (s pat : string) : bool :=
  String.prefix pat s ||
  match s with
  | EmptyString => false
  | String _ s' => includes s' pat
  end.

(** [s.endsWith(suf)]: some tail of [s] is [suf]. The server never calls
    it; the specification speaks of a suffix, and this is that test. *)
Fixpoint endsWith (s suf : string) : bool :=
  String.eqb s suf ||
  match s with
  | EmptyString => false
  | String _ s' => endsWith s' suf
  end.

(** Truthiness of a string-valued field that may be missing: [undefined]
    and the empty string are falsy, every other string is truthy. *)
Definition truthy (v : option string) : bool :=
  match v with
  | None => false
  | Some EmptyString => false
  | Some (String _ _) => true
  end.

(** The string in a field that has passed the truthiness test. *)
Definition str (v : option string) : string := default EmptyString v.

End Js.

(** ** [Map<string, V>]

    A JavaScript [Map] iterates in insertion order: [set] on a present key
    replaces the value where it stands, [set] on an absent key appends,
    [delete] drops the key. *)

Module JsMap.
Section Ops.
Context {V : Type}.

Definition t := list (string * V).

Definition empty : t := [].

Fixpoint get (m : t) (k : string) : option V :=
  match m with
  | [] => None
  | (k', v) :: m' => if String.eqb k' k then Some v else get m' k
  end.

Definition has (m : t) (k : string) : bool :=
  match get m k with Some _ => true | None => false end.

Fixpoint set (m : t) (k : string) (v : V) : t :=
  match m with
  | [] => [(k, v)]
  | (k', v') :: m' =>
      if String.eqb k' k then (k', v) :: m' else (k', v') :: set m' k v
  end.

Fixpoint delete (m : t) (k : string) : t :=
  match m with
  | [] => []
  | (k', v') :: m' =>
      if String.eqb k' k then delete m' k else (k', v') :: delete m' k
  end.

Definition entries (m : t) : list (string * V) := m.

Definition keys (m : t) : list string := fst <$> m.

(** Number of entries stored under [k]. *)
Fixpoint occurrences (m : t) (k : string) : nat :=
  match m with
  | [] => 0
  | (k', _) :: m' => (if String.eqb k' k then 1 else 0) + occurrences m' k
  end.

End Ops.
Arguments t : clear implicits.
End JsMap.

(** ** Values exchanged with the engine, the sockets and the HTTP clients *)

(** What a [throw] or a rejected promise carries: an [Error] instance with
    its [message], or any other value. *)
Inductive Thrown :=
| ErrorObject (message : string)
| NonError (repr : string).

(** How a promise returned by the engine settles. *)
Inductive Settled (A : Type) :=
| Resolved (a : A)
| Rejected (e : Thrown).
Arguments Resolved {A} a.
Arguments Rejected {A} e.

(** [Message] of the type declarations for [whatsapp-web.js]. *)
Record Message := {
  msg_id : string;
  msg_body : string;
  msg_from : string;
  msg_timestamp : Z;
}.

(** [client.info]: typed [any]; the server reads [info?.wid?.user] only. *)
Record ClientInfo := { wid_user : string }.

(** Identity of a [Client] object. *)
Abbreviation Handle := nat.

(** [socket.id]. *)
Abbreviation SocketId := string.

(** A [Client] object as the server sees it: the [clientId] its callbacks
    close over and the [info] field the engine fills in. *)
Record Client := {
  client_id : string;
  info : option ClientInfo;
}.

(** Payload of the [message_<id>] event. *)
Record Inbound := {
  in_from : string;
  in_body : string;
  in_timestamp : Z;
  in_phoneNumber : string;
  in_myNumber : option string;
}.

Inductive Payload :=
| PNone
| PText (s : string)
| PUser (user : option string)
| PConfirmation (status : string) (socketId : SocketId)
| PInbound (m : Inbound).

Record SessionEntry := {
  se_clientId : string;
  se_status : string;
}.

Record HistoryEntry := {
  he_id : string;
  he_from : string;
  he_body : string;
  he_timestamp : Z;
}.

Inductive ResponseBody :=
| HealthOk
| Failure (error : string)
| Sent (messageId : string)
| Success
| Sessions (sessions : list SessionEntry)
| History (messages : list HistoryEntry)
| ExpressDefault.

Record Response := {
  status : nat;
  body : ResponseBody;
}.

(** An argument of [console.log] or [console.error]. *)
Inductive LogArg :=
| LStr (s : string)
| LNum (n : Z)
| LErr (e : Thrown)
| LClients (m : JsMap.t Handle)
| LAny.

(** Everything the server does that the outside can see, in the order it
    happens. *)
Inductive Effect :=
| ConsoleLog (args : list LogArg)
| ConsoleError (args : list LogArg)
| IoEmit (event : string) (payload : Payload)
| SocketEmit (socket : SocketId) (event : string) (payload : Payload)
| EngineInitialize (client : Handle)
| EngineDestroy (client : Handle)
| EngineSendMessage (client : Handle) (to message : string)
| EngineGetChatById (client : Handle) (chatId : string)
| EngineFetchMessages (client : Handle) (limit : nat)
| HttpResponse (r : Response)
| UnhandledRejection (e : Thrown)
| UncaughtException (e : Thrown).

(** What the server attaches to a promise that it does not await: nothing
    ([client.destroy();]), a callback that prints ([.catch(err =>
    console.error(line, err))]), or the callback that [create_session]
    gives to [client.initialize().catch(...)], with the variables it
    closes over. *)
Inductive Reaction :=
| Unwatched
| CatchLog (line : string)
| CatchInitialize (socket : SocketId) (clientId : string) (client : Handle).

(** ** Server state *)

(** The registry, the client objects ever constructed (a handle is an
    index), the promises the server has not awaited (with the reaction
    attached, until they settle), and the effects so far. *)
Record State := {
  clients : JsMap.t Handle;
  heap : list Client;
  promises : list (option Reaction);
  out : list Effect;
}.

Definition initial : State :=
  {| clients := JsMap.empty; heap := []; promises := []; out := [] |}.

Definition with_clients (m : JsMap.t Handle) (st : State) : State :=
  {| clients := m; heap := heap st; promises := promises st; out := out st |}.

Definition with_heap (objects : list Client) (st : State) : State :=
  {| clients := clients st; heap := objects; promises := promises st; out := out st |}.

Definition with_promises (ps : list (option Reaction)) (st : State) : State :=
  {| clients := clients st; heap := heap st; promises := ps; out := out st |}.

(** The state with further effects recorded. *)
Definition with_effects (st : State) (es : list Effect) : State :=
  {| clients := clients st; heap := heap st; promises := promises st;
     out := out st ++ es |}.

(** ** Handlers as state transformers that may throw *)

Inductive Completion (A : Type) :=
| Normal (a : A)
| Throw (e : Thrown).
Arguments Normal {A} a.
Arguments Throw {A} e.

Definition M (A : Type) : Type := State -> Completion A * State.

#[global] Instance M_ret : MRet M := fun A a st => (Normal a, st).

#[global] Instance M_bind : MBind M := fun A B k m st =>
  match m st with
  | (Normal a, st') => k a st'
  | (Throw e, st') => (Throw e, st')
  end.

Definition throw {A} (e : Thrown) : M A := fun st => (Throw e, st).

(** [try { body } catch (error) { handler }] *)
Definition try_catch {A} (body : M A) (handler : Thrown -> M A) : M A :=
  fun st =>
    match body st with
    | (Normal a, st') => (Normal a, st')
    | (Throw e, st') => handler e st'
    end.

Definition effect (e : Effect) : M unit := fun st =>
  (Normal tt, with_effects st [e]).

Definition console_log (args : list LogArg) : M unit := effect (ConsoleLog args).
Definition console_error (args : list LogArg) : M unit := effect (ConsoleError args).
Definition io_emit (event : string) (p : Payload) : M unit := effect (IoEmit event p).
Definition socket_emit (socket : SocketId) (event : string) (p : Payload) : M unit :=
  effect (SocketEmit socket event p).

Definition get_clients : M (JsMap.t Handle) := fun st => (Normal (clients st), st).

Definition clients_has (k : string) : M bool :=
  fun st => (Normal (JsMap.has (clients st) k), st).

Definition clients_get (k : string) : M (option Handle) :=
  fun st => (Normal (JsMap.get (clients st) k), st).

Definition clients_set (k : string) (client : Handle) : M unit := fun st =>
  (Normal tt, with_clients (JsMap.set (clients st) k client) st).

Definition clients_delete (k : string) : M unit := fun st =>
  (Normal tt, with_clients (JsMap.delete (clients st) k) st).

(** [new Client(...)]: a fresh object, [info] not yet set. *)
Definition new_client (id : string) : M Handle := fun st =>
  (Normal (length (heap st)),
   with_heap (heap st ++ [{| client_id := id; info := None |}]) st).

Definition info_of (objects : list Client) (client : Handle) : option ClientInfo :=
  match objects !! client with
  | Some c => info c
  | None => None
  end.

(** [client.info] *)
Definition client_info (client : Handle) : M (option ClientInfo) :=
  fun st => (Normal (info_of (heap st) client), st).

(** [existingClient?.info] *)
Definition client_info_opt (client : option Handle) : M (option ClientInfo) :=
  match client with
  | Some c => client_info c
  | None => mret None
  end.

(** [client.info?.wid?.user] *)
Definition client_user (client : Handle) : M (option string) :=
  i ← client_info client; mret (wid_user <$> i).

(** A call of an engine method whose promise is not awaited: the promise
    joins the pending ones, with the reaction attached to it. The engine's
    methods are [async], so the call itself does not throw; what the
    promise does comes later, as an event of its own. *)
Definition promise (r : Reaction) : M unit := fun st =>
  (Normal tt, with_promises (promises st ++ [Some r]) st).

(** [client.initialize()] followed by what is chained to it. *)
Definition client_initialize (client : Handle) (r : Reaction) : M unit :=
  effect (EngineInitialize client) ;; promise r.

(** [client.destroy()] followed by what is chained to it. *)
Definition client_destroy (client : Handle) (r : Reaction) : M unit :=
  effect (EngineDestroy client) ;; promise r.

(** [await p] inside an [async] function: a rejection is thrown at the
    [await]. *)
Definition await {A} (p : Settled A) : M A :=
  match p with
  | Resolved a => mret a
  | Rejected e => throw e
  end.

(** [error instanceof Error ? error.message : fallback] *)
Definition message_or (error : Thrown) (fallback : string) : string :=
  match error with
  | ErrorObject m => m
  | NonError _ => fallback
  end.

Definition json (code : nat) (b : ResponseBody) : M Response :=
  mret {| status := code; body := b |}.

(** The ternary that the server writes out three times (send-message,
    chat-history, and the [message] callback):
    [to.includes('@c.us') ? to : `${to}@c.us`]. *)
Definition formattedNumber (to : string) : string :=
  if Js.includes to "@c.us" then to else to +:+ "@c.us".

(** [createWhatsAppClient]: makes the credential directory, constructs the
    client and registers the callbacks. [construct] is the exception that
    [fs.mkdirSync] or the constructor throws, if any. The callbacks are
    the [on_...] functions below, applied to [clientId] and the new
    object. *)
Definition createWhatsAppClient (id : string) (construct : option Thrown) : M Handle :=
  match construct with
  | Some e => throw e
  | None => new_client id
  end.

(** ** Handlers that the two copies share word for word *)

(** [app.get('/health')] *)
Definition health : M Response := json 200 HealthOk.

(** [client.on('loading_screen')] *)
Definition on_loading_screen (clientId : string) (percent : Z) (message : string) : M unit :=
  console_log [LStr ("[" +:+ clientId +:+ "] Loading:"); LNum percent; LStr "%"; LStr message].

(** [client.on('qr')] *)
Definition on_qr (clientId : string) (qr : string) : M unit :=
  console_log [LStr ("[" +:+ clientId +:+ "] QR Code received")] ;;
  io_emit ("qr_" +:+ clientId) (PText qr).

(** [client.on('ready')] *)
Definition on_ready (clientId : string) (client : Handle) : M unit :=
  console_log [LStr ("[" +:+ clientId +:+ "] Client is ready!")] ;;
  user ← client_user client;
  io_emit ("ready_" +:+ clientId) (PUser user).

(** [client.on('authenticated')] *)
Definition on_authenticated (clientId : string) : M unit :=
  console_log [LStr ("[" +:+ clientId +:+ "] Client is authenticated!")].

(** The object literal that the [message] callback emits. *)
Definition inbound (message : Message) (myNumber : option string) : Inbound :=
  {| in_from := msg_from message;
     in_body := msg_body message;
     in_timestamp := msg_timestamp message;
     in_phoneNumber := formattedNumber (msg_from message);
     in_myNumber := myNumber |}.

(** First statements of [io.on('connection')]. *)
Definition on_connection (socket : SocketId) : M unit :=
  console_log [LStr "Client connected with ID:"; LStr socket] ;;
  socket_emit socket "connect_confirmation" (PConfirmation "connected" socket).

(** [socket.on('disconnect')] *)
Definition on_socket_disconnect (socket : SocketId) (reason : string) : M unit :=
  console_log [LStr "Client disconnected:"; LStr socket; LStr "Reason:"; LStr reason].

(** [socket.on('error')] *)
Definition on_socket_error (error : Thrown) : M unit :=
  console_error [LStr "Socket error:"; LErr error].

(** Body of a [POST /api/send-message] request; a field is [None] when the
    JSON body lacks it. *)
Record SendMessageBody := {
  sm_clientId : option string;
  sm_to : option string;
  sm_message : option string;
}.

(** [app.post('/api/send-message')]. [sendMessage to message] is how the
    promise of [client.sendMessage(to, message)] settles; the route
    awaits it inside its [try]. *)
Definition send_message (req : SendMessageBody)
    (sendMessage : string -> string -> Settled Message) : M Response :=
  try_catch
    (let clientId := sm_clientId req in
     let to := sm_to req in
     let message := sm_message req in
     if negb (Js.truthy clientId) || negb (Js.truthy to) || negb (Js.truthy message)
     then json 400 (Failure "Client ID, recipient number, and message are required")
     else
       client ← clients_get (Js.str clientId);
       match client with
       | None => json 404 (Failure "WhatsApp client not found")
       | Some client =>
           i ← client_info client;
           match i with
           | None => json 400 (Failure "WhatsApp client is not initialized yet")
           | Some _ =>
               let formattedNumber := formattedNumber (Js.str to) in
               effect (EngineSendMessage client formattedNumber (Js.str message)) ;;
               response ← await (sendMessage formattedNumber (Js.str message));
               json 200 (Sent (msg_id response))
           end
       end)
    (fun error =>
       console_error [LStr "Error sending message:"; LErr error] ;;
       json 500 (Failure (message_or error "Failed to send message"))).

(** One element of the array that [GET /api/sessions] builds. *)
Definition session_entry (objects : list Client) (e : string * Handle) : SessionEntry :=
  {| se_clientId := e.1;
     se_status := match info_of objects e.2 with
                  | Some _ => "connected"
                  | None => "disconnected"
                  end |}.

(** [app.get('/api/sessions')] *)
Definition sessions : M Response := fun st =>
  json 200 (Sessions (session_entry (heap st) <$> JsMap.entries (clients st))) st.

(** [app.delete('/api/session/:clientId')]. The promise of
    [client.destroy()] is dropped: no reaction is attached to it. *)
Definition delete_session (clientId : string) : M Response :=
  client ← clients_get clientId;
  match client with
  | Some client =>
      client_destroy client Unwatched ;;
      clients_delete clientId ;;
      json 200 Success
  | None => json 404 (Failure "Session not found")
  end.

(** ** First copy of the server *)

Module V1.

(** [client.on('qr_max_retries')] *)
Definition on_qr_max_retries (clientId : string) (client : Handle) : M unit :=
  console_log [LStr ("[" +:+ clientId +:+ "] Maximum QR code retries reached")] ;;
  try_catch
    (clients_delete clientId ;;
     io_emit ("error_" +:+ clientId)
       (PText "Maximum QR code retries reached. Session removed.") ;;
     client_destroy client (CatchLog ("[" +:+ clientId +:+ "] Error destroying client:")))
    (fun error =>
       console_error
         [LStr ("[" +:+ clientId +:+ "] Error handling qr_max_retries:"); LErr error]).

(** [client.on('auth_failure')] *)
Definition on_auth_failure (clientId : string) (client : Handle) (msg : string) : M unit :=
  console_error [LStr ("[" +:+ clientId +:+ "] Authentication failure:"); LStr msg] ;;
  try_catch
    (io_emit ("error_" +:+ clientId) (PText "Authentication failed. Please try again.") ;;
     clients_delete clientId ;;
     client_destroy client (CatchLog ("[" +:+ clientId +:+ "] Error destroying client:")))
    (fun error =>
       console_error
         [LStr ("[" +:+ clientId +:+ "] Error handling auth_failure:"); LErr error]).

(** [client.on('disconnected')] *)
Definition on_disconnected (clientId : string) (reason : string) : M unit :=
  console_log [LStr ("[" +:+ clientId +:+ "] Client was disconnected:"); LStr reason] ;;
  try_catch
    ((if String.eqb reason "LOGOUT" || String.eqb reason "UNPAIRED"
      then
        clients_delete clientId ;;
        console_log [LStr ("[" +:+ clientId +:+ "] Session removed due to unlinking")]
      else mret tt) ;;
     io_emit ("disconnected_" +:+ clientId) (PText reason))
    (fun error =>
       console_error
         [LStr ("[" +:+ clientId +:+ "] Error handling disconnected:"); LErr error]).

(** [client.on('message')] *)
Definition on_message (clientId : string) (client : Handle) (message : Message) : M unit :=
  try_catch
    (console_log [LStr ("[" +:+ clientId +:+ "] Message received:"); LStr (msg_body message)] ;;
     myNumber ← client_user client;
     io_emit ("message_" +:+ clientId) (PInbound (inbound message myNumber)))
    (fun error =>
       console_error [LStr ("[" +:+ clientId +:+ "] Error handling message:"); LErr error]).

(** [socket.on('ping_timeout')] *)
Definition on_ping_timeout (socket : SocketId) : M unit :=
  console_log [LStr ("Ping timeout for socket: " +:+ socket)] ;;
  socket_emit socket "error" (PText "Connection timeout. Please reconnect.").

(** [socket.on('connect_error')] *)
Definition on_connect_error (socket : SocketId) (error : Thrown) : M unit :=
  console_error [LStr ("Connection error for socket " +:+ socket +:+ ":"); LErr error] ;;
  socket_emit socket "error" (PText "Connection error occurred. Please try reconnecting.").

(** [socket.on('create_session')]. The handler has no [await]: the test
    [clients.has] and the [clients.set] that follows run in one piece. *)
Definition create_session (socket : SocketId) (clientId : string)
    (construct : option Thrown) : M unit :=
  console_log [LStr ("Creating new session for client: " +:+ clientId)] ;;
  try_catch
    (exists_ ← clients_has clientId;
     if negb exists_ then
       client ← createWhatsAppClient clientId construct;
       clients_set clientId client ;;
       client_initialize client (CatchInitialize socket clientId client)
     else
       console_log [LStr ("Session " +:+ clientId +:+ " already exists")] ;;
       socket_emit socket ("error_" +:+ clientId +:+ "_Session already exists") PNone ;;
       existingClient ← clients_get clientId;
       i ← client_info_opt existingClient;
       match i with
       | Some _ => socket_emit socket ("ready_" +:+ clientId) PNone
       | None => mret tt
       end)
    (fun error =>
       console_error [LStr ("Error creating session for " +:+ clientId +:+ ":"); LErr error] ;;
       socket_emit socket ("error_" +:+ clientId) (PText "Failed to create WhatsApp session")).

(** The callback given to [client.initialize().catch(...)] by
    [create_session]; it runs when the promise rejects with [err]. *)
Definition on_initialize_rejected (socket : SocketId) (clientId : string)
    (client : Handle) (err : Thrown) : M unit :=
  console_error [LStr ("[" +:+ clientId +:+ "] Error during initialization:"); LErr err] ;;
  socket_emit socket ("error_" +:+ clientId) (PText "Failed to initialize WhatsApp client") ;;
  clients_delete clientId ;;
  client_destroy client
    (CatchLog ("[" +:+ clientId +:+ "] Error destroying client after init failure:")).

(** Body of a [POST /api/chat-history] request. *)
Record ChatHistoryBody := {
  ch_clientId : option string;
  ch_phoneNumber : option string;
}.

Definition history_entry (msg : Message) : HistoryEntry :=
  {| he_id := msg_id msg;
     he_from := msg_from msg;
     he_body := msg_body msg;
     he_timestamp := msg_timestamp msg |}.

(** [app.post('/api/chat-history')]. [getChatById chatId] is how the
    promise of [client.getChatById(chatId)] settles, and, when it
    resolves, how the promise of [chat.fetchMessages({ limit: 100 })]
    settles. *)
Definition chat_history (req : ChatHistoryBody)
    (getChatById : string -> Settled (Settled (list Message))) : M Response :=
  try_catch
    (let clientId := ch_clientId req in
     let phoneNumber := ch_phoneNumber req in
     if negb (Js.truthy clientId) || negb (Js.truthy phoneNumber)
     then json 400 (Failure "Client ID and phone number are required")
     else
       client ← clients_get (Js.str clientId);
       match client with
       | None => json 404 (Failure "WhatsApp client not found")
       | Some client =>
           i ← client_info client;
           match i with
           | None => json 400 (Failure "WhatsApp client is not initialized yet")
           | Some _ =>
               let formattedNumber := formattedNumber (Js.str phoneNumber) in
               effect (EngineGetChatById client formattedNumber) ;;
               chat ← await (getChatById formattedNumber);
               effect (EngineFetchMessages client 100) ;;
               messages ← await chat;
               json 200 (History (history_entry <$> messages))
           end
       end)
    (fun error =>
       console_error [LStr "Error fetching chat history:"; LErr error] ;;
       json 500 (Failure (message_or error "Failed to fetch chat history"))).

End V1.

(** ** Second copy of the server *)

Module V2.

(** [client.on('auth_failure')] *)
Definition on_auth_failure (clientId : string) (msg : string) : M unit :=
  console_error [LStr ("[" +:+ clientId +:+ "] Authentication failure:"); LStr msg] ;;
  io_emit ("error_" +:+ clientId) (PText "Authentication failed. Please try again.").

(** [client.on('disconnected')] *)
Definition on_disconnected (clientId : string) (reason : string) : M unit :=
  console_log [LStr ("[" +:+ clientId +:+ "] Client was disconnected:"); LStr reason] ;;
  clients_delete clientId ;;
  registry ← get_clients;
  console_log [LClients registry] ;;
  io_emit ("disconnected_" +:+ clientId) (PText reason).

(** [client.on('message')] *)
Definition on_message (clientId : string) (client : Handle) (message : Message) : M unit :=
  console_log [LStr ("[" +:+ clientId +:+ "] Message received:"); LStr (msg_body message)] ;;
  myNumber ← client_user client;
  io_emit ("message_" +:+ clientId) (PInbound (inbound message myNumber)).

(** [socket.on('create_session')]: three branches, as written; the second
    test repeats the negation of the first. *)
Definition create_session (socket : SocketId) (clientId : string)
    (construct : option Thrown) : M unit :=
  console_log [LStr ("Creating new session for client: " +:+ clientId)] ;;
  exists_ ← clients_has clientId;
  if negb exists_ then
    client ← createWhatsAppClient clientId construct;
    clients_set clientId client ;;
    client_initialize client (CatchInitialize socket clientId client)
  else
    again ← clients_has clientId;
    if again : bool then
      console_log [LStr ("Session " +:+ clientId +:+ " already exists")] ;;
      existingClient ← clients_get clientId;
      console_log [LAny]
    else
      console_log [LStr ("Session " +:+ clientId +:+ " already exists")] ;;
      existingClient ← clients_get clientId;
      i ← client_info_opt existingClient;
      match i with
      | Some _ => socket_emit socket ("ready_" +:+ clientId) PNone
      | None => mret tt
      end.

(** The callback given to [client.initialize().catch(...)]. *)
Definition on_initialize_rejected (socket : SocketId) (clientId : string)
    (err : Thrown) : M unit :=
  console_error [LStr ("[" +:+ clientId +:+ "] Error during initialization:"); LErr err] ;;
  socket_emit socket ("error_" +:+ clientId) (PText "Failed to initialize WhatsApp client").

End V2.

(** ** The event loop *)

Inductive Copy := First | Second.

(** One callback delivered by the runtime, with what the outside decides
    about it: the request or event data, how the engine promises that a
    route awaits settle, and which pending promise settles how. *)
Inductive Event :=
| GetHealth
| PostSendMessage (req : SendMessageBody) (sendMessage : string -> string -> Settled Message)
| GetSessions
| DeleteSession (clientId : string)
| PostChatHistory (req : V1.ChatHistoryBody)
    (getChatById : string -> Settled (Settled (list Message)))
| Connection (socket : SocketId)
| PingTimeout (socket : SocketId)
| ConnectError (socket : SocketId) (error : Thrown)
| CreateSession (socket : SocketId) (clientId : string) (construct : option Thrown)
| Resolves (p : nat)
| Rejects (p : nat) (e : Thrown)
| SocketDisconnect (socket : SocketId) (reason : string)
| SocketError (socket : SocketId) (error : Thrown)
| LoadingScreen (client : Handle) (percent : Z) (message : string)
| Qr (client : Handle) (qr : string)
| QrMaxRetries (client : Handle)
| Ready (client : Handle) (i : ClientInfo)
| Authenticated (client : Handle)
| AuthFailure (client : Handle) (msg : string)
| Disconnected (client : Handle) (reason : string)
| Incoming (client : Handle) (message : Message).

(** A socket or engine callback returns to the runtime; an exception that
    escapes it is uncaught. Node then ends the process: the effect is
    recorded, and the state returned is the one in which the process
    stops (see [ends_process]). *)
Definition returned (m : M unit) (st : State) : State :=
  match m st with
  | (Normal _, st') => st'
  | (Throw e, st') => (effect (UncaughtException e) st').2
  end.

(** A route handler answers the request; Express answers with its own
    error page for an exception that escapes the handler. *)
Definition responded (m : M Response) (st : State) : State :=
  match m st with
  | (Normal r, st') => (effect (HttpResponse r) st').2
  | (Throw _, st') =>
      (effect (HttpResponse {| status := 500; body := ExpressDefault |}) st').2
  end.

(** A callback registered on a client object by [createWhatsAppClient]:
    it exists once the object does, and closes over its [clientId]. *)
Definition on_client (client : Handle) (callback : string -> M unit)
    (st : State) : option State :=
  match heap st !! client with
  | Some c => Some (returned (callback (client_id c)) st)
  | None => None
  end.

(** The engine assigns [client.info] before it emits [ready]. This is the
    one statement about the inside of [whatsapp-web.js] that the model
    contains; the server only ever reads the field. *)
Definition engine_sets_info (client : Handle) (i : ClientInfo) : M unit := fun st =>
  (Normal tt,
   with_heap (alter (fun c => {| client_id := client_id c; info := Some i |})
                client (heap st)) st).

(** What runs when a promise with reaction [r] rejects with [e]. A
    rejection that nothing is attached to is reported by the runtime as
    unhandled, and Node then ends the process: the effect is recorded,
    and the state returned is the one in which the process stops (see
    [ends_process]). *)
Definition react (copy : Copy) (r : Reaction) (e : Thrown) : M unit :=
  match r with
  | Unwatched => effect (UnhandledRejection e)
  | CatchLog line => console_error [LStr line; LErr e]
  | CatchInitialize socket clientId client =>
      match copy with
      | First => V1.on_initialize_rejected socket clientId client e
      | Second => V2.on_initialize_rejected socket clientId e
      end
  end.

(** A promise settles once. *)
Definition settle (p : nat) (st : State) : State :=
  with_promises (<[p := None]> (promises st)) st.

Definition step (copy : Copy) (ev : Event) (st : State) : option State :=
  match ev with
  | GetHealth => Some (responded health st)
  | PostSendMessage req sendMessage => Some (responded (send_message req sendMessage) st)
  | GetSessions => Some (responded sessions st)
  | DeleteSession clientId => Some (responded (delete_session clientId) st)
  | PostChatHistory req getChatById =>
      match copy with
      | First => Some (responded (V1.chat_history req getChatById) st)
      | Second => Some (responded (json 404 ExpressDefault) st)
      end
  | Connection socket => Some (returned (on_connection socket) st)
  | PingTimeout socket =>
      match copy with
      | First => Some (returned (V1.on_ping_timeout socket) st)
      | Second => Some st
      end
  | ConnectError socket error =>
      match copy with
      | First => Some (returned (V1.on_connect_error socket error) st)
      | Second => Some st
      end
  | CreateSession socket clientId construct =>
      match copy with
      | First => Some (returned (V1.create_session socket clientId construct) st)
      | Second => Some (returned (V2.create_session socket clientId construct) st)
      end
  | Resolves p =>
      match promises st !! p with
      | Some (Some _) => Some (settle p st)
      | _ => None
      end
  | Rejects p e =>
      match promises st !! p with
      | Some (Some r) => Some (returned (react copy r e) (settle p st))
      | _ => None
      end
  | SocketDisconnect socket reason => Some (returned (on_socket_disconnect socket reason) st)
  | SocketError socket error => Some (returned (on_socket_error error) st)
  | LoadingScreen client percent message =>
      on_client client (fun clientId => on_loading_screen clientId percent message) st
  | Qr client qr => on_client client (fun clientId => on_qr clientId qr) st
  | QrMaxRetries client =>
      on_client client (fun clientId =>
        match copy with
        | First => V1.on_qr_max_retries clientId client
        | Second => mret tt
        end) st
  | Ready client i =>
      on_client client (fun clientId =>
        engine_sets_info client i ;; on_ready clientId client) st
  | Authenticated client => on_client client on_authenticated st
  | AuthFailure client msg =>
      on_client client (fun clientId =>
        match copy with
        | First => V1.on_auth_failure clientId client msg
        | Second => V2.on_auth_failure clientId msg
        end) st
  | Disconnected client reason =>
      on_client client (fun clientId =>
        match copy with
        | First => V1.on_disconnected clientId reason
        | Second => V2.on_disconnected clientId reason
        end) st
  | Incoming client message =>
      on_client client (fun clientId =>
        match copy with
        | First => V1.on_message clientId client message
        | Second => V2.on_message clientId client message
        end) st
  end.

Fixpoint run (copy : Copy) (evs : list Event) (st : State) : option State :=
  match evs with
  | [] => Some st
  | ev :: evs' =>
      match step copy ev st with
      | Some st' => run copy evs' st'
      | None => None
      end
  end.

(** States the server can be in: those some sequence of callbacks leads
    to from the empty registry. *)
Definition reachable (copy : Copy) (st : State) : Prop :=
  exists evs, run copy evs initial = Some st.

Definition registered (st : State) (clientId : string) : Prop :=
  JsMap.has (clients st) clientId = true.

(** The session stored under [clientId] has reached Ready: the engine has
    set the [info] of its client object. This is the test the server
    itself makes ([client.info], [existingClient?.info]). *)
Definition is_ready (st : State) (clientId : string) : bool :=
  match JsMap.get (clients st) clientId with
  | Some client => match info_of (heap st) client with Some _ => true | None => false end
  | None => false
  end.

(** What [GET /api/sessions] lists. *)
Definition listed (st : State) : list SessionEntry :=
  session_entry (heap st) <$> JsMap.entries (clients st).

(** Number of listed entries for [id]. *)
Definition listed_for (st : State) (id : string) : nat :=
  length (filter (fun e => se_clientId e = id) (listed st)).

(** The registry is well formed: no key twice, and the client stored
    under a key is an object that [createWhatsAppClient] made for that
    key. *)
Definition well_formed (st : State) : Prop :=
  NoDup (JsMap.keys (clients st)) /\
  forall id client, JsMap.get (clients st) id = Some client ->
    exists c, heap st !! client = Some c /\ client_id c = id.

(** The effects a callback adds to those already made. *)
Definition added (st st' : State) (es : list Effect) : Prop :=
  out st' = out st ++ es.

(** The four ways in which a callback can leave the registry and the
    client objects. *)
Inductive change (st st' : State) : Prop :=
| unchanged :
    clients st' = clients st -> heap st' = heap st -> change st st'
| removed (id : string) :
    clients st' = JsMap.delete (clients st) id -> heap st' = heap st ->
    change st st'
| created (id : string) :
    JsMap.has (clients st) id = false ->
    clients st' = JsMap.set (clients st) id (length (heap st)) ->
    heap st' = heap st ++ [{| client_id := id; info := None |}] ->
    change st st'
| informed (client : Handle) (i : ClientInfo) :
    clients st' = clients st ->
    heap st' = alter (fun c => {| client_id := client_id c; info := Some i |})
                 client (heap st) ->
    change st st'.

(** The state after the callbacks [evs], delivered to a server that has
    just started. *)
Definition after (copy : Copy) (evs : list Event) : State :=
  default initial (run copy evs initial).

(** ** The error names of the specification, as the responses of the
    send-message route *)

Definition Required : Response :=
  {| status := 400;
     body := Failure "Client ID, recipient number, and message are required" |}.

Definition NotFound : Response :=
  {| status := 404; body := Failure "WhatsApp client not found" |}.

Definition NotReady : Response :=
  {| status := 400; body := Failure "WhatsApp client is not initialized yet" |}.

Definition SendFailure (reason : string) : Response :=
  {| status := 500; body := Failure reason |}.

(** [sendMessage(sessionId, recipient, body)] of the specification: the
    route called with the three strings. *)
Definition sendMessage_call (sessionId recipient body : string) : SendMessageBody :=
  {| sm_clientId := Some sessionId; sm_to := Some recipient; sm_message := Some body |}.

(** The test [!clientId || !to || !message] of the send-message route,
    negated. *)
Definition all_present (req : SendMessageBody) : bool :=
  Js.truthy (sm_clientId req) && Js.truthy (sm_to req) && Js.truthy (sm_message req).

(** An engine that accepts the chat ids that end in "@c.us" and rejects
    every other. *)
Definition strict_engine (to message : string) : Settled Message :=
  if Js.endsWith to "@c.us"
  then Resolved {| msg_id := "m1"; msg_body := message; msg_from := "me"; msg_timestamp := 0 |}
  else Rejected (ErrorObject "invalid wid").

(** ** Vocabulary for the statements about whole callbacks *)

(** The effects that a callback has added, read off the two states. *)
Definition new_effects (st st' : State) : list Effect :=
  drop (length (out st)) (out st').


(** The callbacks that [createWhatsAppClient] registers on a client
    object. *)
Definition engine_event (ev : Event) : option Handle :=
  match ev with
  | LoadingScreen client _ _ | Qr client _ | QrMaxRetries client
  | Ready client _ | Authenticated client | AuthFailure client _
  | Disconnected client _ | Incoming client _ => Some client
  | _ => None
  end.

(** The session id that a callback is about, if any: the id in the
    request, or the [clientId] that the callback closes over. *)
Definition concerns (st : State) (ev : Event) : option string :=
  match ev with
  | CreateSession _ id _ => Some id
  | DeleteSession id => Some id
  | Rejects p _ =>
      match promises st !! p with
      | Some (Some (CatchInitialize _ id _)) => Some id
      | _ => None
      end
  | _ =>
      match engine_event ev with
      | Some client => client_id <$> heap st !! client
      | None => None
      end
  end.

(** The names under which a session's events are broadcast. *)
Definition event_names (id : string) : list string :=
  (fun kind => kind +:+ id) <$> ["qr_"; "ready_"; "error_"; "disconnected_"; "message_"].

(** * Facts *)

(** ** Strings *)

#[local] Arguments String.append !_ _ / : simpl nomatch.

Lemma append_empty_r (s : string) : s +:+ EmptyString = s.
Proof. induction s as [|c s IH]; simpl; congruence. Qed.

Lemma length_append (s t : string) :
  String.length (s +:+ t) = String.length s + String.length t.
Proof. induction s as [|c s IH]; simpl; congruence. Qed.

Lemma append_assoc (s t u : string) : (s +:+ t) +:+ u = s +:+ t +:+ u.
Proof. induction s as [|c s IH]; simpl; congruence. Qed.

Lemma append_neq_self (s t : string) : t ≠ EmptyString -> s +:+ t ≠ s.
Proof.
  intros Ht Heq. apply (f_equal String.length) in Heq.
  rewrite length_append in Heq. destruct t; [done | simpl in Heq; lia].
Qed.

Lemma prefix_refl (p : string) : String.prefix p p = true.
Proof.
  induction p as [|c p IH]; simpl; [done |].
  by destruct (Ascii.ascii_dec c c).
Qed.

Lemma prefix_append (p r : string) : String.prefix p (p +:+ r) = true.
Proof.
  induction p as [|c p IH]; simpl; [by destruct r |].
  by destruct (Ascii.ascii_dec c c).
Qed.

Lemma prefix_inv (p s : string) :
  String.prefix p s = true -> exists r, s = p +:+ r.
Proof.
  revert s. induction p as [|c p IH]; intros s H.
  - by exists s.
  - destruct s as [|d s]; simpl in H; [done |].
    destruct (Ascii.ascii_dec c d) as [->|]; [| done].
    destruct (IH _ H) as [r ->]. by exists r.
Qed.

Lemma includes_prefix (s pat : string) :
  String.prefix pat s = true -> Js.includes s pat = true.
Proof. destruct s; cbn [Js.includes]; by intros ->. Qed.

(** [includes] is the substring test. *)
Lemma includes_spec (s pat : string) :
  Js.includes s pat = true <-> exists l r, s = l +:+ pat +:+ r.
Proof.
  split.
  - induction s as [|c s IH]; intros H; cbn [Js.includes] in H;
      apply orb_true_iff in H as [H|H].
    + apply prefix_inv in H as [r Hr]. by exists EmptyString, r.
    + done.
    + apply prefix_inv in H as [r Hr]. by exists EmptyString, r.
    + destruct (IH H) as (l & r & ->). by exists (String c l), r.
  - intros (l & r & ->). induction l as [|c l IH]; cbn [Js.includes].
    + change (EmptyString +:+ pat +:+ r) with (pat +:+ r).
      apply includes_prefix, prefix_append.
    + change (String c l +:+ pat +:+ r) with (String c (l +:+ pat +:+ r)).
      cbn [Js.includes]. by rewrite IH, orb_true_r.
Qed.

Lemma includes_append (a pat : string) : Js.includes (a +:+ pat) pat = true.
Proof. apply includes_spec. exists a, EmptyString. by rewrite append_empty_r. Qed.

Lemma truthy_append (a : string) : Js.truthy (Some (a +:+ "@c.us")) = true.
Proof. by destruct a. Qed.

Lemma truthy_nonempty (a : string) : a ≠ EmptyString -> Js.truthy (Some a) = true.
Proof. by destruct a. Qed.

Example formattedNumber_bare : formattedNumber "1555" = "1555@c.us".
Proof. reflexivity. Qed.

Example formattedNumber_suffixed : formattedNumber "1555@c.us" = "1555@c.us".
Proof. reflexivity. Qed.

Example formattedNumber_group : formattedNumber "1203630@g.us" = "1203630@g.us@c.us".
Proof. reflexivity. Qed.

(** ** The registry as a [Map] *)

(** [set] on a present key keeps the position of the entry. *)
Example set_keeps_order :
  JsMap.entries (JsMap.set (JsMap.set (JsMap.set JsMap.empty "b" 0) "a" 1) "b" 2)
  = [("b", 2); ("a", 1)].
Proof. reflexivity. Qed.

Example delete_then_set_appends :
  JsMap.entries (JsMap.set (JsMap.delete [("b", 0); ("a", 1)] "b") "b" 2)
  = [("a", 1); ("b", 2)].
Proof. reflexivity. Qed.

Section MapFacts.
Context {V : Type}.
Implicit Types (m : JsMap.t V) (k : string) (v : V).

Lemma get_set_eq m k v : JsMap.get (JsMap.set m k v) k = Some v.
Proof.
  induction m as [|[k' v'] m IH]; simpl.
  - by rewrite String.eqb_refl.
  - destruct (String.eqb k' k) eqn:E; simpl; rewrite E; done.
Qed.

Lemma get_set_ne m k k' v : k ≠ k' -> JsMap.get (JsMap.set m k v) k' = JsMap.get m k'.
Proof.
  intros Hne. induction m as [|[k0 v0] m IH]; simpl.
  - by apply String.eqb_neq in Hne as ->.
  - destruct (String.eqb k0 k) eqn:E; simpl.
    + apply String.eqb_eq in E as ->. by apply String.eqb_neq in Hne as ->.
    + by rewrite IH.
Qed.

Lemma get_delete_eq m k : JsMap.get (JsMap.delete m k) k = None.
Proof.
  induction m as [|[k' v'] m IH]; simpl; [done |].
  destruct (String.eqb k' k) eqn:E; simpl; [done | by rewrite E].
Qed.

Lemma get_delete_ne m k k' : k ≠ k' -> JsMap.get (JsMap.delete m k) k' = JsMap.get m k'.
Proof.
  intros Hne. induction m as [|[k0 v0] m IH]; simpl; [done |].
  destruct (String.eqb k0 k) eqn:E; simpl.
  - apply String.eqb_eq in E as ->. by apply String.eqb_neq in Hne as ->.
  - by rewrite IH.
Qed.

Lemma delete_absent m k : JsMap.has m k = false -> JsMap.delete m k = m.
Proof.
  unfold JsMap.has. induction m as [|[k' v'] m IH]; simpl; [done |].
  destruct (String.eqb k' k) eqn:E; [done |]. intros H. by rewrite IH.
Qed.

Lemma has_delete m k : JsMap.has (JsMap.delete m k) k = false.
Proof. unfold JsMap.has. by rewrite get_delete_eq. Qed.

Lemma has_keys m k : JsMap.has m k = true <-> k ∈ JsMap.keys m.
Proof.
  unfold JsMap.has, JsMap.keys. induction m as [|[k' v'] m IH]; simpl.
  - split; [done | by intros ?%elem_of_nil].
  - rewrite elem_of_cons. destruct (String.eqb k' k) eqn:E.
    + apply String.eqb_eq in E. split; [by left | done].
    + apply String.eqb_neq in E. rewrite IH. split; [by right | by intros [?|?]].
Qed.

Lemma keys_set_present m k v :
  JsMap.has m k = true -> JsMap.keys (JsMap.set m k v) = JsMap.keys m.
Proof.
  unfold JsMap.has, JsMap.keys. induction m as [|[k' v'] m IH]; simpl; [done |].
  destruct (String.eqb k' k) eqn:E; simpl; [done |]. intros H. f_equal. by apply IH.
Qed.

Lemma keys_set_absent m k v :
  JsMap.has m k = false -> JsMap.keys (JsMap.set m k v) = JsMap.keys m ++ [k].
Proof.
  unfold JsMap.has, JsMap.keys. induction m as [|[k' v'] m IH]; simpl; [done |].
  destruct (String.eqb k' k) eqn:E; simpl; [done |]. intros H. f_equal. by apply IH.
Qed.

Lemma keys_delete_sub m k k' : k' ∈ JsMap.keys (JsMap.delete m k) -> k' ∈ JsMap.keys m.
Proof.
  unfold JsMap.keys. induction m as [|[k0 v0] m IH]; simpl; [done |].
  destruct (String.eqb k0 k); simpl; rewrite ?elem_of_cons; intros H.
  - right. by apply IH.
  - destruct H as [->|H]; [by left | right; by apply IH].
Qed.

Lemma NoDup_keys_set m k v : NoDup (JsMap.keys m) -> NoDup (JsMap.keys (JsMap.set m k v)).
Proof.
  intros Hm. destruct (JsMap.has m k) eqn:E.
  - by rewrite keys_set_present.
  - rewrite keys_set_absent by done. apply NoDup_app. split_and!; [done | | apply NoDup_singleton].
    intros x Hx ->%list_elem_of_singleton. apply has_keys in Hx. congruence.
Qed.

Lemma NoDup_keys_delete m k : NoDup (JsMap.keys m) -> NoDup (JsMap.keys (JsMap.delete m k)).
Proof.
  unfold JsMap.keys. induction m as [|[k0 v0] m IH]; simpl; [done |].
  intros [Hk0 Hm]%NoDup_cons. destruct (String.eqb k0 k); [by apply IH |].
  simpl. apply NoDup_cons. split; [| by apply IH].
  intros Hin. by apply keys_delete_sub in Hin.
Qed.

Lemma occurrences_absent m k : k ∉ JsMap.keys m -> JsMap.occurrences m k = 0.
Proof.
  unfold JsMap.keys. induction m as [|[k0 v0] m IH]; simpl; [done |].
  rewrite not_elem_of_cons. intros [Hne Hm].
  assert (String.eqb k0 k = false) as -> by (apply String.eqb_neq; congruence).
  by rewrite IH.
Qed.

(** With unique keys, a key is stored once or not at all. *)
Lemma occurrences_NoDup m k :
  NoDup (JsMap.keys m) ->
  JsMap.occurrences m k = if JsMap.has m k then 1 else 0.
Proof.
  unfold JsMap.has, JsMap.keys. induction m as [|[k0 v0] m IH]; simpl; [done |].
  intros [Hk0 Hm]%NoDup_cons. destruct (String.eqb k0 k) eqn:E.
  - apply String.eqb_eq in E as ->. by rewrite occurrences_absent.
  - by rewrite IH.
Qed.

End MapFacts.

(** ** One step of the event loop *)

Ltac unfold_handlers :=
  unfold step, on_client, returned, responded,
    health, on_loading_screen, on_qr, on_ready, on_authenticated, on_connection,
    on_socket_disconnect, on_socket_error, send_message, sessions, delete_session,
    V1.on_qr_max_retries, V1.on_auth_failure, V1.on_disconnected, V1.on_message,
    V1.on_ping_timeout, V1.on_connect_error, V1.create_session,
    V1.on_initialize_rejected, V1.chat_history,
    V2.on_auth_failure, V2.on_disconnected, V2.on_message, V2.create_session,
    V2.on_initialize_rejected,
    createWhatsAppClient, client_destroy, client_initialize, promise, react, settle,
    client_user,
    client_info_opt, client_info, new_client, engine_sets_info, await, json,
    clients_has, clients_get, clients_set, clients_delete, get_clients,
    console_log, console_error, io_emit, socket_emit, effect, try_catch, throw,
    with_clients, with_heap, with_promises, with_effects,
    mbind, M_bind, mret, M_ret in *.

Ltac run_handlers H :=
  unfold_handlers; simpl in H;
  repeat (repeat case_match; simplify_eq/=; unfold_handlers).

Lemma step_change copy ev st st' : step copy ev st = Some st' -> change st st'.
Proof.
  intros H. destruct copy, ev; run_handlers H.
  all: try (by apply unchanged).
  all: try (by eapply removed).
  all: try (by eapply informed).
  all: eapply created; simpl; [| done..]; by apply negb_true_iff.
Qed.

Lemma change_well_formed st st' : change st st' -> well_formed st -> well_formed st'.
Proof.
  intros Hch [Hnd Hobj]. destruct Hch as [Hc Hh | id Hc Hh | id Hnew Hc Hh | client i Hc Hh];
    split; rewrite ?Hc, ?Hh; auto using NoDup_keys_delete, NoDup_keys_set.
  - intros id' client Hget. destruct (decide (id = id')) as [->|Hne].
    + by rewrite get_delete_eq in Hget.
    + rewrite get_delete_ne in Hget by done. auto.
  - intros id' client Hget. destruct (decide (id = id')) as [->|Hne].
    + rewrite get_set_eq in Hget. injection Hget as <-.
      exists {| client_id := id'; info := None |}. split; [| done].
      by rewrite lookup_app_r, Nat.sub_diag.
    + rewrite get_set_ne in Hget by done.
      destruct (Hobj _ _ Hget) as (c & Hlk & Hid). exists c. split; [| done].
      by apply lookup_app_l_Some.
  - intros id client' Hget. destruct (Hobj _ _ Hget) as (c & Hlk & Hid).
    destruct (decide (client = client')) as [->|Hne].
    + eexists. rewrite list_lookup_alter_eq, Hlk. by split.
    + exists c. by rewrite list_lookup_alter_ne.
Qed.

Lemma initial_well_formed : well_formed initial.
Proof. split; [apply NoDup_nil_2 | done]. Qed.

Lemma run_well_formed copy evs st st' :
  run copy evs st = Some st' -> well_formed st -> well_formed st'.
Proof.
  revert st. induction evs as [|ev evs IH]; simpl; intros st Hrun Hwf.
  - by injection Hrun as <-.
  - destruct (step copy ev st) as [st1|] eqn:Hstep; [| done].
    eauto using change_well_formed, step_change.
Qed.

Lemma reachable_well_formed copy st : reachable copy st -> well_formed st.
Proof. intros [evs Hrun]. eauto using run_well_formed, initial_well_formed. Qed.

(** A step removes an entry or leaves it: it never stores another client
    under a key that is taken. *)
Lemma change_keeps_client st st' x client :
  change st st' ->
  JsMap.get (clients st) x = Some client ->
  JsMap.get (clients st') x = Some client \/ JsMap.get (clients st') x = None.
Proof.
  intros Hch Hget. destruct Hch as [Hc Hh | id Hc Hh | id Hnew Hc Hh | c i Hc Hh];
    rewrite Hc; auto.
  - destruct (decide (id = x)) as [->|Hne].
    + right. apply get_delete_eq.
    + left. by rewrite get_delete_ne.
  - left. rewrite get_set_ne; [done |]. intros ->.
    unfold JsMap.has in Hnew. by rewrite Hget in Hnew.
Qed.

Lemma run_snoc copy evs ev st st1 st2 :
  run copy evs st = Some st1 -> step copy ev st1 = Some st2 ->
  run copy (evs ++ [ev]) st = Some st2.
Proof.
  revert st. induction evs as [|e evs IH]; simpl; intros st Hrun Hstep.
  - injection Hrun as ->. by rewrite Hstep.
  - destruct (step copy e st); [eauto | done].
Qed.

Lemma reachable_step copy ev st st' :
  reachable copy st -> step copy ev st = Some st' -> reachable copy st'.
Proof. intros [evs Hrun] Hstep. exists (evs ++ [ev]). eauto using run_snoc. Qed.

(** ** Creating a session *)

(** The line both copies print when the key is taken. *)
Lemma create_session_taken copy socket x construct st :
  registered st x ->
  exists st' es,
    step copy (CreateSession socket x construct) st = Some st' /\
    clients st' = clients st /\ heap st' = heap st /\
    added st st' es /\
    ConsoleLog [LStr ("Session " +:+ x +:+ " already exists")] ∈ es /\
    (forall client, EngineInitialize client ∉ es).
Proof.
  unfold registered, added. intros Hreg.
  destruct copy; unfold_handlers; simpl; rewrite Hreg; simpl;
    repeat case_match; simplify_eq/=; do 2 eexists;
    (split_and!; [reflexivity | done | done | by rewrite <- ?app_assoc | | ]).
  all: try (intros client Hin; repeat (apply elem_of_cons in Hin as [Hin|Hin]; [done |]);
            by apply elem_of_nil in Hin).
  all: repeat first [apply list_elem_of_here | apply list_elem_of_further].
Qed.

Lemma create_session_registers copy socket x st st' :
  step copy (CreateSession socket x None) st = Some st' -> registered st' x.
Proof.
  unfold registered. intros H.
  destruct copy; unfold_handlers; simpl in H;
    destruct (JsMap.has (clients st) x) eqn:Hhas; simpl in H;
    repeat case_match; simplify_eq/=; try done.
  all: unfold JsMap.has; by rewrite get_set_eq.
Qed.

(** X22. The registry side of a create request, in both copies. On every
    reachable state an id is stored at most once. [create_session] tests
    [clients.has] and calls [clients.set] inside one callback, with no
    suspension point in between (it is one [step]); a create request for
    an id that is taken prints that the session already exists,
    constructs and initializes no client, and leaves registry and client
    objects as they were; and no callback whatsoever replaces the client
    stored under a taken id: an entry is kept or removed. What the
    requester is told is not part of this statement. *)
Theorem one_session_per_id copy st x :
  reachable copy st ->
  JsMap.occurrences (clients st) x <= 1 /\
  (forall ev st' client,
     step copy ev st = Some st' ->
     JsMap.get (clients st) x = Some client ->
     JsMap.get (clients st') x = Some client \/ JsMap.get (clients st') x = None) /\
  (forall socket construct,
     registered st x ->
     exists st' es,
       step copy (CreateSession socket x construct) st = Some st' /\
       clients st' = clients st /\ heap st' = heap st /\
       added st st' es /\
       ConsoleLog [LStr ("Session " +:+ x +:+ " already exists")] ∈ es /\
       (forall client, EngineInitialize client ∉ es)) /\
  (forall socket1 socket2 construct st1,
     step copy (CreateSession socket1 x None) st = Some st1 ->
     exists st2 es,
       step copy (CreateSession socket2 x construct) st1 = Some st2 /\
       clients st2 = clients st1 /\ heap st2 = heap st1 /\
       added st1 st2 es /\
       ConsoleLog [LStr ("Session " +:+ x +:+ " already exists")] ∈ es /\
       JsMap.occurrences (clients st2) x = 1).
Proof.
  intros Hreach. pose proof (reachable_well_formed _ _ Hreach) as [Hnd _].
  split_and!.
  - rewrite occurrences_NoDup by done. destruct (JsMap.has _ _); lia.
  - intros ev st' client Hstep. apply change_keeps_client. eauto using step_change.
  - intros socket construct. apply create_session_taken.
  - intros socket1 socket2 construct st1 Hstep.
    pose proof (create_session_registers _ _ _ _ _ Hstep) as Hreg.
    destruct (create_session_taken copy socket2 x construct st1 Hreg)
      as (st2 & es & Hstep2 & Hc & Hh & Hout & Hlog & _).
    exists st2, es. split_and!; try done.
    assert (reachable copy st1) as [Hnd1 _]%reachable_well_formed
      by eauto using reachable_step.
    rewrite Hc, occurrences_NoDup by done. by rewrite Hreg.
Qed.

Lemma one_session_per_id_witness :
  JsMap.occurrences (clients (after First [CreateSession "s1" "A" None])) "A" <= 1.
Proof.
  apply (one_session_per_id First (after First [CreateSession "s1" "A" None]) "A").
  exists [CreateSession "s1" "A" None]. reflexivity.
Defined.

(** C1 at the input on which the second copy departs from it: socket "s1"
    creates session "A" and socket "s2" asks to create "A" right after.
    In both copies the registry holds "A" once, with the client of the
    first request, before and after the second request, and no client is
    constructed or initialized for it. In the first copy the second
    requester is sent the duplicate notice. In the second copy the second
    request adds three lines to the console and nothing else: the second
    requester observes nothing. *)
Theorem C1_second_copy_second_create_unobserved :
  let first := [CreateSession "s1" "A" None] in
  let both := [CreateSession "s1" "A" None; CreateSession "s2" "A" None] in
  (forall copy,
     JsMap.get (clients (after copy first)) "A" = Some 0 /\
     clients (after copy both) = clients (after copy first) /\
     heap (after copy both) = heap (after copy first) /\
     promises (after copy both) = promises (after copy first) /\
     JsMap.occurrences (clients (after copy both)) "A" = 1) /\
  new_effects (after Second first) (after Second both) =
    [ConsoleLog [LStr "Creating new session for client: A"];
     ConsoleLog [LStr "Session A already exists"];
     ConsoleLog [LAny]] /\
  new_effects (after First first) (after First both) =
    [ConsoleLog [LStr "Creating new session for client: A"];
     ConsoleLog [LStr "Session A already exists"];
     SocketEmit "s2" "error_A_Session already exists" PNone].
Proof. split_and!; [intros []; by vm_compute | by vm_compute..]. Qed.

(** ** Destroying a session *)

(** C7. [DELETE /api/session/:clientId] for an id that is not in the
    registry answers 404 with [{ success: false, error: 'Session not
    found' }] and leaves the state as it was: no entry is added, removed
    or modified, no client object is touched, no promise is pending and
    the engine is not called. The route is the same in both copies; the
    only effect of the callback is the response. *)
Theorem C7_destroy_absent st clientId :
  JsMap.has (clients st) clientId = false ->
  delete_session clientId st =
    (Normal {| status := 404; body := Failure "Session not found" |}, st) /\
  forall copy,
    step copy (DeleteSession clientId) st =
      Some (with_effects st
              [HttpResponse {| status := 404; body := Failure "Session not found" |}]).
Proof.
  unfold JsMap.has. intros Hget.
  assert (JsMap.get (clients st) clientId = None) as Hnone
    by (destruct (JsMap.get (clients st) clientId); done).
  split.
  - unfold_handlers. by rewrite Hnone.
  - intros copy. unfold_handlers. by rewrite Hnone.
Qed.

Lemma C7_witness :
  delete_session "C" (after First [CreateSession "s1" "A" None]) =
    (Normal {| status := 404; body := Failure "Session not found" |},
     after First [CreateSession "s1" "A" None]).
Proof.
  apply (C7_destroy_absent (after First [CreateSession "s1" "A" None]) "C").
  reflexivity.
Defined.

(** ** Listing the sessions *)

Lemma sessions_listed st :
  sessions st = (Normal {| status := 200; body := Sessions (listed st) |}, st).
Proof. reflexivity. Qed.

Lemma listed_for_occurrences st id :
  listed_for st id = JsMap.occurrences (clients st) id.
Proof.
  unfold listed_for, listed, JsMap.entries.
  induction (clients st) as [|[k client] m IH]; [done |].
  rewrite fmap_cons, filter_cons. simpl.
  destruct (String.eqb k id) eqn:E.
  - apply String.eqb_eq in E as ->. rewrite decide_True by done. simpl. by rewrite IH.
  - apply String.eqb_neq in E. rewrite decide_False by done. by rewrite IH.
Qed.

Lemma get_elem_of {V} (m : JsMap.t V) k v : JsMap.get m k = Some v -> (k, v) ∈ m.
Proof.
  induction m as [|[k' v'] m IH]; simpl; [done |].
  destruct (String.eqb k' k) eqn:E.
  - apply String.eqb_eq in E as ->. intros [= ->]. apply list_elem_of_here.
  - intros H. apply list_elem_of_further. by apply IH.
Qed.

Lemma elem_of_get {V} (m : JsMap.t V) k v :
  NoDup (JsMap.keys m) -> (k, v) ∈ m -> JsMap.get m k = Some v.
Proof.
  unfold JsMap.keys. induction m as [|[k' v'] m IH]; simpl.
  - by intros _ ?%elem_of_nil.
  - intros [Hk' Hm]%NoDup_cons [Heq|Hin]%elem_of_cons.
    + injection Heq as -> ->. by rewrite String.eqb_refl.
    + destruct (String.eqb k' k) eqn:E; [| by apply IH].
      apply String.eqb_eq in E as ->. destruct Hk'.
      apply (list_elem_of_fmap_2 fst) in Hin. done.
Qed.

Lemma listed_status st e :
  NoDup (JsMap.keys (clients st)) ->
  e ∈ listed st ->
  se_status e = if is_ready st (se_clientId e) then "connected" else "disconnected".
Proof.
  unfold listed, JsMap.entries, is_ready.
  intros Hnd ([k client] & -> & Hin)%list_elem_of_fmap. simpl.
  rewrite (elem_of_get _ _ _ Hnd Hin). by destruct (info_of (heap st) client).
Qed.

(** The [info] of a client object is what the last [ready] event of that
    client put there, and nothing before the first. *)
Lemma step_info copy ev st st' client :
  step copy ev st = Some st' ->
  info_of (heap st') client =
    match ev with
    | Ready c i => if decide (c = client) then Some i else info_of (heap st) client
    | _ => info_of (heap st) client
    end.
Proof.
  intros Hstep. pose proof (step_change _ _ _ _ Hstep) as Hch.
  assert (forall id, info_of (heap st ++ [{| client_id := id; info := None |}]) client
                     = info_of (heap st) client) as Hnew.
  { intros id. unfold info_of. destruct (decide (client < length (heap st))) as [Hlt|Hge].
    - by rewrite lookup_app_l.
    - rewrite lookup_app_r, (lookup_ge_None_2 (heap st)) by lia.
      by destruct (client - length (heap st)) as [|[|]]. }
  destruct copy, ev; run_handlers Hstep; try done.
  all: unfold info_of; simpl; try (by rewrite list_lookup_alter_ne).
  all: try (rewrite list_lookup_alter_eq; by destruct (heap st !! _)).
Qed.

Lemma run_info copy evs st st' client :
  run copy evs st = Some st' ->
  is_Some (info_of (heap st') client) <->
  is_Some (info_of (heap st) client) \/ exists i, Ready client i ∈ evs.
Proof.
  revert st. induction evs as [|ev evs IH]; simpl; intros st Hrun.
  - injection Hrun as <-. split; [by left |].
    intros [? | [i Hin]]; [done | by apply elem_of_nil in Hin].
  - destruct (step copy ev st) as [st1|] eqn:Hstep; [| done].
    rewrite (IH _ Hrun), (step_info _ _ _ _ client Hstep).
    setoid_rewrite elem_of_cons. destruct ev; try naive_solver.
    case_decide; naive_solver.
Qed.

Lemma ready_step copy client i st c :
  heap st !! client = Some c ->
  exists st',
    step copy (Ready client i) st = Some st' /\
    clients st' = clients st /\
    info_of (heap st') client = Some i.
Proof.
  intros Hc. unfold_handlers. rewrite Hc. simpl. eexists. split_and!; [done..|].
  unfold info_of. simpl. by rewrite list_lookup_alter_eq, Hc.
Qed.

(** C8. [GET /api/sessions] answers with exactly one entry for every id
    in the registry and none for any other, whose status is "connected"
    exactly when the session has reached Ready and "disconnected"
    otherwise. A registered session has reached Ready exactly when the
    engine has emitted [ready] for its client object. In particular, when
    a session "B" is created and the engine then emits [ready] for it,
    the list holds the entry for "B" with status "connected", once. Holds
    for both copies. *)
Theorem C8_list_sessions copy evs st :
  run copy evs initial = Some st ->
  sessions st = (Normal {| status := 200; body := Sessions (listed st) |}, st) /\
  (forall id, listed_for st id = if JsMap.has (clients st) id then 1 else 0) /\
  (forall e, e ∈ listed st ->
     se_status e = if is_ready st (se_clientId e) then "connected" else "disconnected") /\
  (forall id client, JsMap.get (clients st) id = Some client ->
     is_ready st id = true <-> exists i, Ready client i ∈ evs) /\
  (forall socket B st1,
     step copy (CreateSession socket B None) st = Some st1 ->
     exists client,
       JsMap.get (clients st1) B = Some client /\
       forall i, exists st2,
         step copy (Ready client i) st1 = Some st2 /\
         listed_for st2 B = 1 /\
         {| se_clientId := B; se_status := "connected" |} ∈ listed st2).
Proof.
  intros Hrun.
  assert (reachable copy st) as Hreach by (by exists evs).
  pose proof (reachable_well_formed _ _ Hreach) as [Hnd Hobj].
  split_and!.
  - apply sessions_listed.
  - intros id. by rewrite listed_for_occurrences, occurrences_NoDup.
  - intros e. by apply listed_status.
  - intros id client Hget. unfold is_ready. rewrite Hget.
    pose proof (run_info _ _ _ _ client Hrun) as Hinfo.
    destruct (info_of (heap st) client) eqn:E.
    + split; [intros _ | done]. destruct Hinfo as [[[[] Hnone]|Hi] _]; [by eexists | | done].
      unfold info_of in Hnone. simpl in Hnone. by destruct client.
    + split; [done |]. intros Hi. destruct Hinfo as [_ [? Hsome]]; [by right | done].
  - intros socket B st1 Hstep.
    pose proof (create_session_registers _ _ _ _ _ Hstep) as Hreg.
    assert (reachable copy st1) as Hreach1 by eauto using reachable_step.
    pose proof (reachable_well_formed _ _ Hreach1) as [Hnd1 Hobj1].
    unfold registered, JsMap.has in Hreg.
    destruct (JsMap.get (clients st1) B) as [client|] eqn:Hget; [| done].
    exists client. split; [done |]. intros i.
    destruct (Hobj1 _ _ Hget) as (c & Hc & _).
    destruct (ready_step copy client i st1 c Hc) as (st2 & Hstep2 & Hcl & Hinfo).
    exists st2. split_and!; [done | |].
    + rewrite listed_for_occurrences, Hcl, occurrences_NoDup by done.
      unfold JsMap.has. by rewrite Hget.
    + unfold listed, JsMap.entries. rewrite Hcl.
      apply list_elem_of_fmap. exists (B, client). split; [| by apply get_elem_of].
      unfold session_entry. simpl. by rewrite Hinfo.
Qed.

Lemma C8_witness :
  listed (after First [CreateSession "s1" "B" None; Ready 0 {| wid_user := "4915" |}]) =
    [{| se_clientId := "B"; se_status := "connected" |}] /\
  listed_for (after First [CreateSession "s1" "B" None; Ready 0 {| wid_user := "4915" |}]) "B"
    = 1.
Proof.
  split; [reflexivity |].
  apply (C8_list_sessions First
           [CreateSession "s1" "B" None; Ready 0 {| wid_user := "4915" |}]
           (after First [CreateSession "s1" "B" None; Ready 0 {| wid_user := "4915" |}])
           eq_refl).
Defined.

(** ** Sending a message *)

Lemma send_message_required req sendMessage st :
  Js.truthy (sm_clientId req) && Js.truthy (sm_to req) && Js.truthy (sm_message req)
    = false ->
  send_message req sendMessage st = (Normal Required, st).
Proof.
  intros H. unfold send_message, try_catch.
  destruct (Js.truthy (sm_clientId req)), (Js.truthy (sm_to req)),
    (Js.truthy (sm_message req)); done.
Qed.

Lemma send_message_valid req sendMessage st :
  Js.truthy (sm_clientId req) && Js.truthy (sm_to req) && Js.truthy (sm_message req)
    = true ->
  send_message req sendMessage st =
    match JsMap.get (clients st) (Js.str (sm_clientId req)) with
    | None => (Normal NotFound, st)
    | Some client =>
        match info_of (heap st) client with
        | None => (Normal NotReady, st)
        | Some _ =>
            let to := formattedNumber (Js.str (sm_to req)) in
            let message := Js.str (sm_message req) in
            match sendMessage to message with
            | Resolved response =>
                (Normal {| status := 200; body := Sent (msg_id response) |},
                 with_effects st [EngineSendMessage client to message])
            | Rejected error =>
                (Normal (SendFailure (message_or error "Failed to send message")),
                 with_effects st
                   [EngineSendMessage client to message;
                    ConsoleError [LStr "Error sending message:"; LErr error]])
            end
        end
    end.
Proof.
  intros H. unfold send_message, try_catch, with_effects.
  destruct (Js.truthy (sm_clientId req)), (Js.truthy (sm_to req)),
    (Js.truthy (sm_message req)); try done.
  unfold_handlers. simpl.
  destruct (JsMap.get (clients st) (Js.str (sm_clientId req))) as [client|]; [| done].
  simpl. destruct (info_of (heap st) client); [| done].
  simpl. destruct (sendMessage _ _); simpl; [done |].
  by rewrite <- app_assoc.
Qed.

(** C4, as amended. [POST /api/send-message] first tests that the three
    fields are present and non-empty, and answers 400 when one is not,
    whatever the registry holds. For a call that passes this test: an id
    that is not in the registry gives NotFound (404); a registered
    session that is not yet Ready gives NotReady (400); otherwise the
    engine is asked to send to the normalized address, and a rejection
    gives SendFailure (500) with the message of the error (with "Failed to
    send message" when the rejection is not an [Error]), a resolution
    gives 200 with the id of the message. The registry and the client
    objects are the same after the call. *)
Theorem C4_send_message_outcomes st req sendMessage :
  (all_present req = false ->
     send_message req sendMessage st = (Normal Required, st)) /\
  (all_present req = true ->
     let sessionId := Js.str (sm_clientId req) in
     let to := formattedNumber (Js.str (sm_to req)) in
     let message := Js.str (sm_message req) in
     (JsMap.has (clients st) sessionId = false ->
        send_message req sendMessage st = (Normal NotFound, st)) /\
     (registered st sessionId -> is_ready st sessionId = false ->
        send_message req sendMessage st = (Normal NotReady, st)) /\
     (is_ready st sessionId = true ->
        exists client,
          JsMap.get (clients st) sessionId = Some client /\
          (forall error, sendMessage to message = Rejected error ->
             send_message req sendMessage st =
               (Normal (SendFailure (message_or error "Failed to send message")),
                with_effects st
                  [EngineSendMessage client to message;
                   ConsoleError [LStr "Error sending message:"; LErr error]])) /\
          (forall response, sendMessage to message = Resolved response ->
             send_message req sendMessage st =
               (Normal {| status := 200; body := Sent (msg_id response) |},
                with_effects st [EngineSendMessage client to message])))).
Proof.
  split; [apply send_message_required |].
  intros Hvalid. cbv zeta. unfold registered, is_ready, JsMap.has.
  rewrite (send_message_valid _ _ _ Hvalid). cbv zeta.
  destruct (JsMap.get (clients st) (Js.str (sm_clientId req))) as [client|];
    [| by split_and!].
  destruct (info_of (heap st) client); split_and!; try done.
  intros _. exists client. split_and!; [done | by intros ? -> | by intros ? ->].
Qed.

Lemma C4_witness :
  send_message (sendMessage_call "B" "1555@c.us" "hi") strict_engine
    (after First [CreateSession "s1" "B" None])
  = (Normal NotReady, after First [CreateSession "s1" "B" None]).
Proof.
  apply (C4_send_message_outcomes (after First [CreateSession "s1" "B" None])
           (sendMessage_call "B" "1555@c.us" "hi") strict_engine); reflexivity.
Defined.

(** The claim C4 as the specification has it gives NotFound for every
    call with an id that is not registered. The call with the
    unregistered id "ghost" and an empty recipient is answered by the
    validation instead. *)
Lemma C4_counterexample :
  JsMap.has (clients initial) "ghost" = false /\
  send_message (sendMessage_call "ghost" EmptyString "hi") strict_engine initial
    = (Normal Required, initial) /\
  Required <> NotFound.
Proof. split_and!; [reflexivity | reflexivity | discriminate]. Qed.

(** ** Normalizing an address *)

Lemma formattedNumber_includes (s : string) :
  Js.includes s "@c.us" = true -> formattedNumber s = s.
Proof. unfold formattedNumber. by intros ->. Qed.

Lemma formattedNumber_appends (s : string) :
  Js.includes s "@c.us" = false -> formattedNumber s = s +:+ "@c.us".
Proof. unfold formattedNumber. by intros ->. Qed.

Lemma formattedNumber_idempotent (s : string) :
  formattedNumber (formattedNumber s) = formattedNumber s.
Proof.
  destruct (Js.includes s "@c.us") eqn:E.
  - by rewrite !(formattedNumber_includes s E).
  - rewrite (formattedNumber_appends s E).
    apply formattedNumber_includes, includes_append.
Qed.

(** C9, as amended. For every session id, message body and non-empty
    recipient address [a] that does not contain "@c.us" anywhere, the
    send-message route treats [a] and [a + "@c.us"] alike: the same
    response, the same call to the engine, the same state afterwards,
    whatever the engine does. *)
Theorem C9_normalization_transparent st sessionId a body sendMessage :
  a <> EmptyString ->
  Js.includes a "@c.us" = false ->
  send_message (sendMessage_call sessionId a body) sendMessage st =
  send_message (sendMessage_call sessionId (a +:+ "@c.us") body) sendMessage st.
Proof.
  intros Ha Hinc.
  destruct (all_present (sendMessage_call sessionId a body)) eqn:Hvalid.
  - assert (all_present (sendMessage_call sessionId (a +:+ "@c.us") body) = true) as Hvalid'.
    { unfold all_present, sendMessage_call in *.
      cbn [sm_clientId sm_to sm_message] in *. rewrite truthy_append.
      by rewrite (truthy_nonempty a Ha) in Hvalid. }
    rewrite (send_message_valid _ _ _ Hvalid), (send_message_valid _ _ _ Hvalid').
    simpl. rewrite (formattedNumber_appends a Hinc).
    by rewrite (formattedNumber_includes _ (includes_append a "@c.us")).
  - assert (all_present (sendMessage_call sessionId (a +:+ "@c.us") body) = false) as Hvalid'.
    { unfold all_present, sendMessage_call in *.
      cbn [sm_clientId sm_to sm_message] in *. rewrite truthy_append.
      by rewrite (truthy_nonempty a Ha) in Hvalid. }
    by rewrite !send_message_required.
Qed.

Lemma C9_witness :
  send_message (sendMessage_call "B" "1555" "hi") strict_engine
    (after First [CreateSession "s1" "B" None; Ready 0 {| wid_user := "4915" |}]) =
  send_message (sendMessage_call "B" "1555@c.us" "hi") strict_engine
    (after First [CreateSession "s1" "B" None; Ready 0 {| wid_user := "4915" |}]).
Proof.
  apply (C9_normalization_transparent
           (after First [CreateSession "s1" "B" None; Ready 0 {| wid_user := "4915" |}])
           "B" "1555" "hi" strict_engine); [discriminate | reflexivity].
Defined.

(** The claim C9 as the specification has it speaks of every address
    that lacks the suffix "@c.us". Two such addresses for which the two
    calls differ: the empty address, which the validation turns down
    while "@c.us" passes it; and "1555@c.us.old", which contains "@c.us"
    and so reaches the engine as it is, while "1555@c.us.old@c.us"
    reaches the engine as it is too, and an engine may take one and not
    the other. *)
Lemma C9_counterexample :
  (Js.endsWith EmptyString "@c.us" = false /\
   (send_message (sendMessage_call "B" EmptyString "hi") strict_engine initial).1
     = Normal Required /\
   (send_message (sendMessage_call "B" "@c.us" "hi") strict_engine initial).1
     = Normal NotFound) /\
  (Js.endsWith "1555@c.us.old" "@c.us" = false /\
   (send_message (sendMessage_call "B" "1555@c.us.old" "hi") strict_engine
      (after First [CreateSession "s1" "B" None; Ready 0 {| wid_user := "4915" |}])).1
     = Normal (SendFailure "invalid wid") /\
   (send_message (sendMessage_call "B" ("1555@c.us.old" +:+ "@c.us") "hi") strict_engine
      (after First [CreateSession "s1" "B" None; Ready 0 {| wid_user := "4915" |}])).1
     = Normal {| status := 200; body := Sent "m1" |}).
Proof. by vm_compute. Qed.

(** C10. The normalization that the send-message route, the chat-history
    route and the [message] callback apply appends "@c.us" exactly when
    the input does not contain "@c.us" anywhere: the test is
    [includes], not a test of the suffix. An input that contains "@c.us"
    at any position, suffix or not, is passed on unchanged, and the
    normalization is idempotent on every input. It is what the three
    sites do: the send-message route hands the engine the normalized
    recipient and no other, the chat-history route asks for the chat of
    the normalized number, and the [message] callback of either copy
    broadcasts [message_<id>] with the normalized sender as
    [phoneNumber]. *)
Theorem C10_containment_test (s : string) :
  (formattedNumber s = s +:+ "@c.us" <-> ~ exists l r, s = l +:+ "@c.us" +:+ r) /\
  (formattedNumber s = s <-> exists l r, s = l +:+ "@c.us" +:+ r) /\
  formattedNumber (formattedNumber s) = formattedNumber s /\
  (Js.endsWith "1555@c.us.old" "@c.us" = false /\
   formattedNumber "1555@c.us.old" = "1555@c.us.old") /\
  (forall st client i sessionId message sendMessage,
     JsMap.get (clients st) sessionId = Some client ->
     info_of (heap st) client = Some i ->
     all_present (sendMessage_call sessionId s message) = true ->
     EngineSendMessage client (formattedNumber s) message
       ∈ out (send_message (sendMessage_call sessionId s message) sendMessage st).2) /\
  (forall st client i sessionId getChatById,
     JsMap.get (clients st) sessionId = Some client ->
     info_of (heap st) client = Some i ->
     Js.truthy (Some sessionId) = true -> Js.truthy (Some s) = true ->
     EngineGetChatById client (formattedNumber s)
       ∈ out (V1.chat_history
                {| V1.ch_clientId := Some sessionId; V1.ch_phoneNumber := Some s |}
                getChatById st).2) /\
  (forall message myNumber,
     msg_from message = s ->
     in_phoneNumber (inbound message myNumber) = formattedNumber s) /\
  (forall copy st client c message,
     msg_from message = s ->
     heap st !! client = Some c ->
     step copy (Incoming client message) st =
       Some (with_effects st
               [ConsoleLog [LStr ("[" +:+ client_id c +:+ "] Message received:");
                            LStr (msg_body message)];
                IoEmit ("message_" +:+ client_id c)
                  (PInbound {| in_from := s;
                               in_body := msg_body message;
                               in_timestamp := msg_timestamp message;
                               in_phoneNumber := formattedNumber s;
                               in_myNumber := wid_user <$> info c |})])) /\
  (forall copy st client i sessionId message sendMessage,
     JsMap.get (clients st) sessionId = Some client ->
     info_of (heap st) client = Some i ->
     all_present (sendMessage_call sessionId s message) = true ->
     exists st',
       step copy (PostSendMessage (sendMessage_call sessionId s message) sendMessage) st
         = Some st' /\
       EngineSendMessage client (formattedNumber s) message ∈ out st' /\
       forall to, EngineSendMessage client to message ∈ new_effects st st' ->
                  to = formattedNumber s).
Proof.
  assert (forall t : string, t +:+ "@c.us" <> t) as Hneq
    by (intros t; by apply append_neq_self).
  split_and!.
  - rewrite <- includes_spec. unfold formattedNumber.
    destruct (Js.includes s "@c.us"); split; try done.
    intros Heq. by destruct (Hneq s).
  - rewrite <- includes_spec. unfold formattedNumber.
    destruct (Js.includes s "@c.us"); split; try done.
    intros Heq. by destruct (Hneq s).
  - apply formattedNumber_idempotent.
  - by vm_compute.
  - by vm_compute.
  - intros st client i sessionId message sendMessage Hget Hinfo Hvalid.
    rewrite (send_message_valid _ _ _ Hvalid). simpl. rewrite Hget, Hinfo.
    destruct (sendMessage _ _); simpl; rewrite elem_of_app; right; apply list_elem_of_here.
  - intros st client i sessionId getChatById Hget Hinfo Hid Hs.
    unfold V1.chat_history, try_catch.
    cbn [V1.ch_clientId V1.ch_phoneNumber]. rewrite Hid, Hs.
    unfold_handlers. simpl. rewrite Hget. simpl. rewrite Hinfo. simpl.
    destruct (getChatById _) as [[messages|e]|e]; simpl;
      rewrite <- ?app_assoc, elem_of_app; right; apply list_elem_of_here.
  - by intros message myNumber <-.
  - intros copy st client c message <- Hc.
    destruct copy; unfold_handlers; rewrite Hc; simpl;
      unfold info_of; rewrite Hc; simpl; f_equal; unfold with_effects, inbound; simpl;
      by rewrite <- app_assoc.
  - intros copy st client i sessionId message sendMessage Hget Hinfo Hvalid.
    unfold step, responded. rewrite (send_message_valid _ _ _ Hvalid). simpl.
    rewrite Hget, Hinfo.
    destruct (sendMessage _ _); simpl; eexists; (split; [reflexivity |]); simpl.
    all: split;
      [rewrite <- !app_assoc, elem_of_app; right; apply list_elem_of_here |].
    all: unfold new_effects; simpl; rewrite <- !app_assoc, drop_app_length.
    all: intros to Hin;
      repeat (apply elem_of_cons in Hin as [Hin|Hin]; [congruence |]);
      by apply elem_of_nil in Hin.
Qed.

Lemma C10_witness :
  in_phoneNumber
    (inbound {| msg_id := "m"; msg_body := "hello"; msg_from := "1555@c.us.old";
                msg_timestamp := 0 |} None)
  = "1555@c.us.old".
Proof.
  apply (C10_containment_test "1555@c.us.old"). reflexivity.
Defined.

(** ** Disconnects *)

Ltac same_state :=
  unfold with_effects; simpl; rewrite <- ?app_assoc; simpl; reflexivity.

(** First copy: only LOGOUT and UNPAIRED remove the session; the reason is
    published in every case. *)
Lemma first_copy_disconnected st client c reason :
  heap st !! client = Some c ->
  step First (Disconnected client reason) st =
    Some (if String.eqb reason "LOGOUT" || String.eqb reason "UNPAIRED"
          then
            with_effects (with_clients (JsMap.delete (clients st) (client_id c)) st)
              [ConsoleLog [LStr ("[" +:+ client_id c +:+ "] Client was disconnected:");
                           LStr reason];
               ConsoleLog [LStr ("[" +:+ client_id c +:+ "] Session removed due to unlinking")];
               IoEmit ("disconnected_" +:+ client_id c) (PText reason)]
          else
            with_effects st
              [ConsoleLog [LStr ("[" +:+ client_id c +:+ "] Client was disconnected:");
                           LStr reason];
               IoEmit ("disconnected_" +:+ client_id c) (PText reason)]).
Proof.
  intros Hc. unfold_handlers. rewrite Hc.
  destruct (String.eqb reason "LOGOUT" || String.eqb reason "UNPAIRED");
    simpl; f_equal; same_state.
Qed.

(** Second copy: every reason removes the session. *)
Lemma second_copy_disconnected st client c reason :
  heap st !! client = Some c ->
  step Second (Disconnected client reason) st =
    Some (with_effects (with_clients (JsMap.delete (clients st) (client_id c)) st)
            [ConsoleLog [LStr ("[" +:+ client_id c +:+ "] Client was disconnected:");
                         LStr reason];
             ConsoleLog [LClients (JsMap.delete (clients st) (client_id c))];
             IoEmit ("disconnected_" +:+ client_id c) (PText reason)]).
Proof. intros Hc. unfold_handlers. rewrite Hc. simpl. f_equal. same_state. Qed.

(** What C2 says, for the first copy: when the engine emits [disconnected]
    for the client of a registered session, LOGOUT and UNPAIRED remove
    the session, and every other reason leaves the state as it is but
    for a line on the console and the reason published to the
    subscribers. *)
Lemma first_copy_disconnect_reasons evs st id client reason :
  run First evs initial = Some st ->
  JsMap.get (clients st) id = Some client ->
  exists st',
    step First (Disconnected client reason) st = Some st' /\
    IoEmit ("disconnected_" +:+ id) (PText reason) ∈ out st' /\
    (reason = "LOGOUT" \/ reason = "UNPAIRED" -> JsMap.has (clients st') id = false) /\
    (reason <> "LOGOUT" -> reason <> "UNPAIRED" ->
       st' = with_effects st
               [ConsoleLog [LStr ("[" +:+ id +:+ "] Client was disconnected:"); LStr reason];
                IoEmit ("disconnected_" +:+ id) (PText reason)]).
Proof.
  intros Hrun Hget.
  assert (reachable First st) as [_ Hobj]%reachable_well_formed by (by exists evs).
  destruct (Hobj _ _ Hget) as (c & Hc & <-).
  eexists. split; [by apply first_copy_disconnected |].
  destruct (String.eqb reason "LOGOUT") eqn:E1; [apply String.eqb_eq in E1 |
    destruct (String.eqb reason "UNPAIRED") eqn:E2; [apply String.eqb_eq in E2 |]]; simpl.
  1,2: split_and!; [rewrite elem_of_app; right; repeat constructor
                   | intros _; apply has_delete | done].
  apply String.eqb_neq in E1, E2.
  split_and!; [rewrite elem_of_app; right; repeat constructor | by intros [?|?] | done].
Qed.

(** C2 at the input on which the second copy departs from it: session "A"
    is created and becomes ready, then the engine emits [disconnected]
    with the reason "NAVIGATION". The second copy removes "A"; the first
    copy keeps it. *)
Theorem C2_second_copy_removes_on_navigation :
  let evs := [CreateSession "s1" "A" None; Ready 0 {| wid_user := "4915" |}] in
  registered (after Second evs) "A" /\
  IoEmit "disconnected_A" (PText "NAVIGATION")
    ∈ out (after Second (evs ++ [Disconnected 0 "NAVIGATION"])) /\
  JsMap.has (clients (after Second (evs ++ [Disconnected 0 "NAVIGATION"]))) "A" = false /\
  listed (after Second (evs ++ [Disconnected 0 "NAVIGATION"])) = [] /\
  registered (after First (evs ++ [Disconnected 0 "NAVIGATION"])) "A".
Proof.
  split_and!; try (by vm_compute).
  vm_compute. repeat first [apply list_elem_of_here | apply list_elem_of_further].
Qed.

(** ** A second create request *)

(** First copy: the requester's socket gets an event whose name is
    [error_<id>_Session already exists] (the text is part of the event
    name, and there is no payload), and [ready_<id>] as well when the
    session has reached Ready. Nothing else changes. *)
Lemma first_copy_duplicate st socket id construct :
  registered st id ->
  step First (CreateSession socket id construct) st =
    Some (with_effects st
            ([ConsoleLog [LStr ("Creating new session for client: " +:+ id)];
              ConsoleLog [LStr ("Session " +:+ id +:+ " already exists")];
              SocketEmit socket ("error_" +:+ id +:+ "_Session already exists") PNone]
             ++ if is_ready st id then [SocketEmit socket ("ready_" +:+ id) PNone] else [])).
Proof.
  unfold registered, is_ready, JsMap.has. intros Hreg.
  destruct (JsMap.get (clients st) id) as [client|] eqn:Hget; [| done].
  unfold_handlers. simpl. unfold JsMap.has. rewrite Hget. simpl. rewrite Hget. simpl.
  destruct (info_of (heap st) client); f_equal; same_state.
Qed.

(** Second copy: three lines on the console, nothing to any socket. The
    branch that would emit [ready_<id>] is the [else] of
    [if (!has) ... else if (has) ...] and is never taken. *)
Lemma second_copy_duplicate st socket id construct :
  registered st id ->
  step Second (CreateSession socket id construct) st =
    Some (with_effects st
            [ConsoleLog [LStr ("Creating new session for client: " +:+ id)];
             ConsoleLog [LStr ("Session " +:+ id +:+ " already exists")];
             ConsoleLog [LAny]]).
Proof.
  unfold registered. intros Hreg.
  unfold_handlers. simpl. rewrite Hreg. simpl. rewrite Hreg. simpl. f_equal. same_state.
Qed.

(** C3 at the input on which the second copy departs from it: session "A"
    is created and becomes ready, then socket "s2" asks to create "A"
    again. The registry is unchanged in both copies. The first copy
    emits the duplicate notice and [ready_A] to "s2"; the second copy
    emits nothing to any socket. *)
Theorem C3_second_copy_duplicate_is_silent :
  let evs := [CreateSession "s1" "A" None; Ready 0 {| wid_user := "4915" |}] in
  is_ready (after Second evs) "A" = true /\
  after Second (evs ++ [CreateSession "s2" "A" None]) =
    with_effects (after Second evs)
      [ConsoleLog [LStr "Creating new session for client: A"];
       ConsoleLog [LStr "Session A already exists"];
       ConsoleLog [LAny]] /\
  after First (evs ++ [CreateSession "s2" "A" None]) =
    with_effects (after First evs)
      [ConsoleLog [LStr "Creating new session for client: A"];
       ConsoleLog [LStr "Session A already exists"];
       SocketEmit "s2" "error_A_Session already exists" PNone;
       SocketEmit "s2" "ready_A" PNone].
Proof. by vm_compute. Qed.

(** ** Promises that settle *)

(** A rejection with a printing reaction: one line on the console. *)
Lemma catch_log_rejects copy st p line e :
  promises st !! p = Some (Some (CatchLog line)) ->
  step copy (Rejects p e) st =
    Some (with_effects (settle p st) [ConsoleError [LStr line; LErr e]]).
Proof. intros Hp. unfold step. by rewrite Hp. Qed.

(** A rejection with no reaction: nothing on the console; the runtime
    reports it as unhandled. *)
Lemma unwatched_rejects copy st p e :
  promises st !! p = Some (Some Unwatched) ->
  step copy (Rejects p e) st =
    Some (with_effects (settle p st) [UnhandledRejection e]).
Proof. intros Hp. unfold step. by rewrite Hp. Qed.

(** However a teardown promise settles, the registry stays as the
    removing callback left it. *)
Lemma teardown_settles_registry copy st p r ev st' :
  promises st !! p = Some (Some r) ->
  r = Unwatched \/ (exists line, r = CatchLog line) ->
  ev = Resolves p \/ (exists e, ev = Rejects p e) ->
  step copy ev st = Some st' ->
  clients st' = clients st /\ heap st' = heap st.
Proof.
  intros Hp Hr Hev Hstep.
  destruct Hr as [-> | [line ->]], Hev as [-> | [e ->]];
    unfold step in Hstep; rewrite Hp in Hstep; by simplify_eq/=.
Qed.

(** ** Teardown *)

(** First copy, [auth_failure] and [qr_max_retries]: the entry is deleted
    in the callback itself, before the promise of [client.destroy()] can
    settle, and that promise has a printing reaction. *)
Lemma first_copy_removals st client c ev :
  heap st !! client = Some c ->
  (exists msg, ev = AuthFailure client msg) \/ ev = QrMaxRetries client ->
  exists st' es,
    step First ev st = Some st' /\
    clients st' = JsMap.delete (clients st) (client_id c) /\
    promises st' = promises st ++
      [Some (CatchLog ("[" +:+ client_id c +:+ "] Error destroying client:"))] /\
    added st st' es /\
    EngineDestroy client ∈ es.
Proof.
  unfold added. intros Hc [[msg ->] | ->].
  all: unfold_handlers; rewrite Hc; simpl.
  all: do 2 eexists; split_and!; [reflexivity | done | done | by rewrite <- ?app_assoc |].
  all: repeat first [apply list_elem_of_here | apply list_elem_of_further].
Qed.

(** The route [DELETE /api/session/:clientId], in both copies: the entry
    is deleted and the request answered with success in the callback
    itself, but the promise of [client.destroy()] is left without a
    reaction. *)
Lemma delete_session_registered st clientId client :
  JsMap.get (clients st) clientId = Some client ->
  delete_session clientId st =
    (Normal {| status := 200; body := Success |},
     with_clients (JsMap.delete (clients st) clientId)
       (with_promises (promises st ++ [Some Unwatched])
          (with_effects st [EngineDestroy client]))).
Proof. intros Hget. unfold_handlers. by rewrite Hget. Qed.

(** C5 at the input on which the code departs from it, the same in both
    copies: session "A" is registered, [DELETE /api/session/A] arrives,
    and the promise of [client.destroy()] (the second promise of the run,
    after that of [client.initialize()]) rejects. "A" is removed and the
    request answered with success, as C5 says; but the rejection is
    unhandled, and no line about it reaches the console. In the first
    copy, the same rejection after [auth_failure] is printed. *)
Theorem C5_delete_route_does_not_log_teardown_failure :
  forall copy,
  let boom := ErrorObject "Target closed" in
  let before := after copy [CreateSession "s1" "A" None] in
  let st := after copy [CreateSession "s1" "A" None; DeleteSession "A"; Rejects 1 boom] in
  registered before "A" /\
  JsMap.has (clients st) "A" = false /\
  out st = out before ++
    [EngineDestroy 0; HttpResponse {| status := 200; body := Success |};
     UnhandledRejection boom] /\
  (forall args, ConsoleError args ∉ out st) /\
  ConsoleError [LStr "[A] Error destroying client:"; LErr boom]
    ∈ out (after First [CreateSession "s1" "A" None; AuthFailure 0 "timeout"; Rejects 1 boom]).
Proof.
  intros copy boom before st. subst before st boom.
  destruct copy; (split_and!; [by vm_compute.. | |]).
  1,3: intros args Hin; vm_compute in Hin;
    repeat (apply elem_of_cons in Hin as [Hin|Hin]; [done |]); by apply elem_of_nil in Hin.
  all: vm_compute; repeat first [apply list_elem_of_here | apply list_elem_of_further].
Qed.

(** ** A failed initialization *)

(** A create request for a free id leaves the promise of
    [client.initialize()] pending, with the callback of [create_session]
    attached. *)
Lemma create_session_fresh copy st socket id :
  JsMap.has (clients st) id = false ->
  exists st',
    step copy (CreateSession socket id None) st = Some st' /\
    JsMap.get (clients st') id = Some (length (heap st)) /\
    promises st' = promises st ++
      [Some (CatchInitialize socket id (length (heap st)))].
Proof.
  intros Hfree. destruct copy; unfold_handlers; simpl; rewrite Hfree; simpl.
  all: eexists; split_and!; [reflexivity | apply get_set_eq | done].
Qed.

(** First copy, when that promise rejects: error event to the requester,
    entry deleted, teardown attempted. *)
Lemma first_copy_initialize_rejected st p socket id client err :
  promises st !! p = Some (Some (CatchInitialize socket id client)) ->
  exists st' es,
    step First (Rejects p err) st = Some st' /\
    clients st' = JsMap.delete (clients st) id /\
    JsMap.has (clients st') id = false /\
    added st st' es /\
    SocketEmit socket ("error_" +:+ id) (PText "Failed to initialize WhatsApp client") ∈ es /\
    EngineDestroy client ∈ es.
Proof.
  unfold added. intros Hp. unfold step. rewrite Hp. do 2 unfold_handlers. simpl.
  do 2 eexists; split_and!;
    [reflexivity | done | apply has_delete | by rewrite <- ?app_assoc | ..].
  all: repeat first [apply list_elem_of_here | apply list_elem_of_further].
Qed.

(** Second copy: the error event and a line on the console, nothing
    else. *)
Lemma second_copy_initialize_rejected st p socket id client err :
  promises st !! p = Some (Some (CatchInitialize socket id client)) ->
  step Second (Rejects p err) st =
    Some (with_effects (settle p st)
            [ConsoleError [LStr ("[" +:+ id +:+ "] Error during initialization:"); LErr err];
             SocketEmit socket ("error_" +:+ id)
               (PText "Failed to initialize WhatsApp client")]).
Proof.
  intros Hp. unfold step. rewrite Hp. do 2 unfold_handlers. simpl. f_equal. same_state.
Qed.

(** C6 at the input on which the second copy departs from it: socket
    "s1" creates session "A" and the promise of [client.initialize()]
    rejects. The second copy publishes the error and keeps "A" in the
    registry, listed as disconnected, without calling [client.destroy()];
    the first copy removes "A" and calls [client.destroy()]. *)
Theorem C6_second_copy_keeps_failed_session :
  let failure := Rejects 0 (ErrorObject "Failed to launch the browser process") in
  let evs := [CreateSession "s1" "A" None] in
  after Second (evs ++ [failure]) =
    with_effects (settle 0 (after Second evs))
      [ConsoleError [LStr "[A] Error during initialization:";
                     LErr (ErrorObject "Failed to launch the browser process")];
       SocketEmit "s1" "error_A" (PText "Failed to initialize WhatsApp client")] /\
  registered (after Second (evs ++ [failure])) "A" /\
  listed (after Second (evs ++ [failure])) =
    [{| se_clientId := "A"; se_status := "disconnected" |}] /\
  (forall client, EngineDestroy client ∉ out (after Second (evs ++ [failure]))) /\
  JsMap.has (clients (after First (evs ++ [failure]))) "A" = false /\
  EngineDestroy 0 ∈ out (after First (evs ++ [failure])).
Proof.
  split_and!; try (by vm_compute).
  - intros client Hin. vm_compute in Hin.
    repeat (apply elem_of_cons in Hin as [Hin|Hin]; [done |]). by apply elem_of_nil in Hin.
  - vm_compute. repeat first [apply list_elem_of_here | apply list_elem_of_further].
Qed.

(** * Further properties of the callbacks *)

(** ** Effects are only ever added *)

Ltac tidy_out :=
  unfold new_effects; simpl; rewrite <- ?app_assoc; simpl;
  rewrite ?drop_app_length, ?app_nil_r, ?drop_all; simpl.

Lemma step_out copy ev st st' :
  step copy ev st = Some st' -> out st' = out st ++ new_effects st st'.
Proof.
  intros H. destruct copy, ev; run_handlers H.
  all: tidy_out; try reflexivity; by rewrite app_nil_r.
Qed.

(** X2. The routes other than DELETE, and the socket callbacks other than
    [create_session], are read-only: registry, client objects and pending
    promises are the same afterwards. *)
Theorem read_only_callbacks copy ev st st' :
  step copy ev st = Some st' ->
  match ev with
  | GetHealth | PostSendMessage _ _ | GetSessions | PostChatHistory _ _
  | Connection _ | PingTimeout _ | ConnectError _ _
  | SocketDisconnect _ _ | SocketError _ _
  | LoadingScreen _ _ _ | Qr _ _ | Authenticated _ | Incoming _ _ =>
      clients st' = clients st /\ heap st' = heap st /\ promises st' = promises st
  | _ => True
  end.
Proof.
  intros H. destruct copy, ev; try exact I; run_handlers H; done.
Qed.

Lemma read_only_callbacks_witness :
  let st := after First [CreateSession "s1" "A" None; Ready 0 {| wid_user := "4915" |}] in
  let st' := after First [CreateSession "s1" "A" None; Ready 0 {| wid_user := "4915" |};
                          PostSendMessage (sendMessage_call "A" "1555" "hi") strict_engine] in
  clients st' = clients st /\ heap st' = heap st /\ promises st' = promises st.
Proof.
  apply (read_only_callbacks First
           (PostSendMessage (sendMessage_call "A" "1555" "hi") strict_engine)
           (after First [CreateSession "s1" "A" None; Ready 0 {| wid_user := "4915" |}])).
  reflexivity.
Defined.

Section MapMore.
Context {V : Type}.
Implicit Types (m : JsMap.t V) (k : string) (v : V).

Lemma has_set m k k' v :
  JsMap.has (JsMap.set m k v) k' = String.eqb k k' || JsMap.has m k'.
Proof.
  unfold JsMap.has. destruct (String.eqb k k') eqn:E.
  - apply String.eqb_eq in E as ->. by rewrite get_set_eq.
  - apply String.eqb_neq in E. by rewrite get_set_ne.
Qed.

Lemma has_delete_other m k k' :
  JsMap.has (JsMap.delete m k) k' = negb (String.eqb k k') && JsMap.has m k'.
Proof.
  unfold JsMap.has. destruct (String.eqb k k') eqn:E.
  - apply String.eqb_eq in E as ->. by rewrite get_delete_eq.
  - apply String.eqb_neq in E. by rewrite get_delete_ne.
Qed.

Lemma delete_set_absent m k v :
  JsMap.has m k = false -> JsMap.delete (JsMap.set m k v) k = m.
Proof.
  unfold JsMap.has. induction m as [|[k' v'] m IH]; simpl.
  - by rewrite String.eqb_refl.
  - destruct (String.eqb k' k) eqn:E; [done |]. simpl. rewrite E. intros H. f_equal. by apply IH.
Qed.

Lemma occurrences_delete m k : JsMap.occurrences (JsMap.delete m k) k = 0.
Proof.
  induction m as [|[k' v'] m IH]; simpl; [done |].
  destruct (String.eqb k' k) eqn:E; simpl; [done | by rewrite E].
Qed.

Lemma set_absent_app m k v :
  JsMap.has m k = false -> JsMap.set m k v = m ++ [(k, v)].
Proof.
  unfold JsMap.has. induction m as [|[k' v'] m IH]; simpl; [done |].
  destruct (String.eqb k' k) eqn:E; [done |]. intros H. f_equal. by apply IH.
Qed.

End MapMore.

(** X3. A session enters the registry through [create_session] only, for the
    id of the request, and only when the client could be constructed. *)
Theorem registered_only_by_create copy ev st st' id :
  step copy ev st = Some st' ->
  JsMap.has (clients st) id = false ->
  JsMap.has (clients st') id = true ->
  exists socket, ev = CreateSession socket id None.
Proof.
  intros H Hfree Hreg. destruct copy, ev; run_handlers H.
  all: try congruence.
  all: try (rewrite has_delete_other, Hfree, andb_false_r in Hreg; done).
  all: rewrite has_set, Hfree, orb_false_r in Hreg; apply String.eqb_eq in Hreg as ->; eauto.
Qed.

Lemma registered_only_by_create_witness :
  exists socket, CreateSession "s1" "A" None = CreateSession socket "A" None.
Proof.
  apply (registered_only_by_create Second (CreateSession "s1" "A" None) initial
           (after Second [CreateSession "s1" "A" None]) "A"); reflexivity.
Defined.

(** X4. A session leaves the registry only through a callback that is about
    its id: the DELETE route, a [disconnected] event (in the first copy
    only with the reason LOGOUT or UNPAIRED), and, in the first copy only,
    [auth_failure], [qr_max_retries] and the rejection of
    [client.initialize()]. *)
Theorem removed_only_by copy ev st st' id :
  step copy ev st = Some st' ->
  JsMap.has (clients st) id = true ->
  JsMap.has (clients st') id = false ->
  concerns st ev = Some id /\
  match ev with
  | DeleteSession _ => True
  | Disconnected _ reason =>
      copy = Second \/ reason = "LOGOUT" \/ reason = "UNPAIRED"
  | AuthFailure _ _ | QrMaxRetries _ | Rejects _ _ => copy = First
  | _ => False
  end.
Proof.
  intros H Hreg Hgone. destruct copy, ev; run_handlers H.
  all: try congruence.
  all: try (rewrite has_set, Hreg, orb_true_r in Hgone; done).
  all: rewrite has_delete_other, Hreg, andb_true_r in Hgone;
    apply negb_false_iff, String.eqb_eq in Hgone; subst.
  all: simpl; repeat match goal with Hx : _ !! _ = Some _ |- _ => rewrite Hx end;
    simpl; split; try done.
  all: try (by left).
  right. match goal with Hr : _ || _ = true |- _ =>
    apply orb_true_iff in Hr as [?%String.eqb_eq | ?%String.eqb_eq] end; auto.
Qed.

Lemma removed_only_by_witness :
  concerns (after First [CreateSession "s1" "A" None]) (AuthFailure 0 "timeout") = Some "A" /\
  First = First.
Proof.
  apply (removed_only_by First (AuthFailure 0 "timeout")
           (after First [CreateSession "s1" "A" None])
           (after First [CreateSession "s1" "A" None; AuthFailure 0 "timeout"]) "A");
    reflexivity.
Defined.




(** X6. The callbacks of a client object remove by id, not by object: a
    LOGOUT (either copy) or an authentication failure (first copy) that
    comes from a client which has been replaced under its id removes the
    session of its successor, and the successor's [destroy] is not
    called. *)
Theorem late_event_removes_successor copy st client c successor ev :
  heap st !! client = Some c ->
  JsMap.get (clients st) (client_id c) = Some successor ->
  successor <> client ->
  ev = Disconnected client "LOGOUT" \/
  (copy = First /\ exists msg, ev = AuthFailure client msg) ->
  exists st',
    step copy ev st = Some st' /\
    JsMap.has (clients st') (client_id c) = false /\
    EngineDestroy successor ∉ new_effects st st'.
Proof.
  intros Hc Hsucc Hne [-> | [-> [msg ->]]]; [destruct copy |].
  all: unfold_handlers; rewrite Hc; simpl; eexists; split_and!;
    [reflexivity | apply has_delete |].
  all: tidy_out; intros Hin;
    repeat (apply elem_of_cons in Hin as [Hin|Hin]; [congruence |]);
    by apply elem_of_nil in Hin.
Qed.

Lemma late_event_removes_successor_witness :
  let st := after First [CreateSession "s1" "A" None; DeleteSession "A";
                         CreateSession "s1" "A" None] in
  JsMap.get (clients st) "A" = Some 1 /\
  exists st',
    step First (Disconnected 0 "LOGOUT") st = Some st' /\
    JsMap.has (clients st') "A" = false /\
    EngineDestroy 1 ∉ new_effects st st'.
Proof.
  split; [reflexivity |].
  apply (late_event_removes_successor First
           (after First [CreateSession "s1" "A" None; DeleteSession "A";
                         CreateSession "s1" "A" None])
           0 {| client_id := "A"; info := None |} 1 (Disconnected 0 "LOGOUT"));
    [reflexivity | reflexivity | discriminate | by left].
Defined.

(** X7. No two sessions share a client object, every registered client is an
    object that exists, and a session created under a free id starts not
    ready, with an object of its own, whatever was registered under that
    id before. *)
Theorem sessions_own_their_clients copy st :
  reachable copy st ->
  (forall id1 id2 client,
     JsMap.get (clients st) id1 = Some client ->
     JsMap.get (clients st) id2 = Some client -> id1 = id2) /\
  (forall id client, JsMap.get (clients st) id = Some client -> client < length (heap st)) /\
  (forall socket id st',
     JsMap.has (clients st) id = false ->
     step copy (CreateSession socket id None) st = Some st' ->
     JsMap.get (clients st') id = Some (length (heap st)) /\
     is_ready st' id = false /\
     forall id', id' <> id -> JsMap.get (clients st') id' <> Some (length (heap st))).
Proof.
  intros [Hnd Hobj]%reachable_well_formed. split_and!.
  - intros id1 id2 client H1 H2.
    destruct (Hobj _ _ H1) as (c1 & Hc1 & <-), (Hobj _ _ H2) as (c2 & Hc2 & <-). congruence.
  - intros id client Hget. destruct (Hobj _ _ Hget) as (c & Hc & _).
    by apply lookup_lt_Some in Hc.
  - intros socket id st' Hfree Hstep.
    assert (JsMap.get (clients st') id = Some (length (heap st)) /\
            heap st' = heap st ++ [{| client_id := id; info := None |}] /\
            forall id', id' <> id -> JsMap.get (clients st') id' = JsMap.get (clients st) id')
      as (Hget & Hheap & Hothers).
    { destruct copy; unfold_handlers; simpl in Hstep; rewrite Hfree in Hstep;
        simpl in Hstep; simplify_eq/=;
        (split_and!; [apply get_set_eq | done | intros; by apply get_set_ne]). }
    split_and!; [done | |].
    + unfold is_ready, info_of. rewrite Hget, Hheap.
      by rewrite lookup_app_r, Nat.sub_diag.
    + intros id' Hne Hget'. rewrite Hothers in Hget' by done.
      destruct (Hobj _ _ Hget') as (c & Hc & _). apply lookup_lt_Some in Hc. lia.
Qed.

Lemma sessions_own_their_clients_witness :
  JsMap.get (clients (after First [CreateSession "s1" "A" None;
                                   CreateSession "s2" "B" None])) "B" = Some 1 /\
  1 < length (heap (after First [CreateSession "s1" "A" None; CreateSession "s2" "B" None])).
Proof.
  split; [reflexivity |].
  apply (sessions_own_their_clients First
           (after First [CreateSession "s1" "A" None; CreateSession "s2" "B" None]))
    with "B"; [| reflexivity].
  by exists [CreateSession "s1" "A" None; CreateSession "s2" "B" None].
Defined.

Lemma create_free copy socket id st :
  JsMap.has (clients st) id = false ->
  step copy (CreateSession socket id None) st =
    Some (with_effects
            (with_promises (promises st ++ [Some (CatchInitialize socket id (length (heap st)))])
               (with_clients (JsMap.set (clients st) id (length (heap st)))
                  (with_heap (heap st ++ [{| client_id := id; info := None |}]) st)))
            [ConsoleLog [LStr ("Creating new session for client: " +:+ id)];
             EngineInitialize (length (heap st))]).
Proof.
  intros Hfree. destruct copy; unfold_handlers; simpl; rewrite Hfree; simpl.
  all: f_equal; unfold with_effects; simpl; by rewrite <- app_assoc.
Qed.

Lemma delete_registered_step copy id client st :
  JsMap.get (clients st) id = Some client ->
  step copy (DeleteSession id) st =
    Some (with_effects
            (with_promises (promises st ++ [Some Unwatched])
               (with_clients (JsMap.delete (clients st) id) st))
            [EngineDestroy client; HttpResponse {| status := 200; body := Success |}]).
Proof.
  intros Hget. unfold_handlers. rewrite Hget. simpl.
  f_equal; unfold with_effects; simpl; by rewrite <- app_assoc.
Qed.

Lemma session_entry_grow (objects more : list Client) (m : JsMap.t nat) :
  (forall id client, (id, client) ∈ m -> client < length objects) ->
  session_entry (objects ++ more) <$> m = session_entry objects <$> m.
Proof.
  induction m as [|[id client] m IH]; intros Hlt; [done |].
  rewrite !fmap_cons. f_equal.
  - unfold session_entry, info_of. simpl.
    rewrite lookup_app_l; [done |]. apply (Hlt id). apply list_elem_of_here.
  - apply IH. intros id' client' Hin. apply (Hlt id'). by apply list_elem_of_further.
Qed.

Lemma registered_clients_exist st :
  well_formed st ->
  forall id client, (id, client) ∈ clients st -> client < length (heap st).
Proof.
  intros [Hnd Hobj] id client Hin.
  destruct (Hobj id client (elem_of_get _ _ _ Hnd Hin)) as (c & Hc & _).
  by apply lookup_lt_Some in Hc.
Qed.

(** X8. [GET /api/sessions] lists the sessions in the order in which they
    were created: a session created under a free id is appended to the
    list, as "disconnected", and the entries before it are unchanged. *)
Theorem new_session_listed_last copy st socket id :
  reachable copy st ->
  JsMap.has (clients st) id = false ->
  exists st',
    step copy (CreateSession socket id None) st = Some st' /\
    listed st' = listed st ++ [{| se_clientId := id; se_status := "disconnected" |}].
Proof.
  intros Hwf%reachable_well_formed Hfree. eexists. split; [by apply create_free |].
  unfold listed, JsMap.entries. simpl. rewrite set_absent_app by done.
  rewrite fmap_app. f_equal.
  - apply session_entry_grow. by apply registered_clients_exist.
  - unfold session_entry, info_of. simpl. by rewrite lookup_app_r, Nat.sub_diag.
Qed.

Lemma new_session_listed_last_witness :
  exists st',
    step First (CreateSession "s2" "B" None) (after First [CreateSession "s1" "A" None])
      = Some st' /\
    listed st' = listed (after First [CreateSession "s1" "A" None])
                 ++ [{| se_clientId := "B"; se_status := "disconnected" |}].
Proof.
  apply (new_session_listed_last First (after First [CreateSession "s1" "A" None]) "s2" "B");
    [by exists [CreateSession "s1" "A" None] | reflexivity].
Defined.

(** X9. Creating a session under a free id and destroying it again gives back
    the registry as it was, entry for entry and in the same order; the
    list of sessions is the same as before. The client object and the two
    promises (of [initialize] and of [destroy]) remain. *)
Theorem create_then_destroy_restores copy st socket id :
  reachable copy st ->
  JsMap.has (clients st) id = false ->
  exists st1 st2,
    step copy (CreateSession socket id None) st = Some st1 /\
    step copy (DeleteSession id) st1 = Some st2 /\
    clients st2 = clients st /\
    listed st2 = listed st /\
    promises st2 = promises st ++
      [Some (CatchInitialize socket id (length (heap st))); Some Unwatched].
Proof.
  intros Hwf%reachable_well_formed Hfree. do 2 eexists.
  split; [by apply create_free |].
  split; [apply delete_registered_step; simpl; apply get_set_eq |].
  simpl. rewrite delete_set_absent by done. split_and!; [done | | by rewrite <- app_assoc].
  unfold listed, JsMap.entries. simpl.
  apply session_entry_grow. by apply registered_clients_exist.
Qed.

Lemma create_then_destroy_restores_witness :
  exists st1 st2,
    step Second (CreateSession "s2" "B" None) (after Second [CreateSession "s1" "A" None])
      = Some st1 /\
    step Second (DeleteSession "B") st1 = Some st2 /\
    clients st2 = clients (after Second [CreateSession "s1" "A" None]).
Proof.
  destruct (create_then_destroy_restores Second
              (after Second [CreateSession "s1" "A" None]) "s2" "B")
    as (st1 & st2 & H1 & H2 & H3 & _);
    [by exists [CreateSession "s1" "A" None] | reflexivity |].
  by exists st1, st2.
Defined.

(** X10. The DELETE route is idempotent on the state: after one call the id is
    gone, and a second call answers 404 and changes nothing. *)
Theorem destroy_twice copy st id :
  exists st1,
    step copy (DeleteSession id) st = Some st1 /\
    JsMap.has (clients st1) id = false /\
    step copy (DeleteSession id) st1 =
      Some (with_effects st1
              [HttpResponse {| status := 404; body := Failure "Session not found" |}]).
Proof.
  assert (forall st1, JsMap.has (clients st1) id = false ->
            step copy (DeleteSession id) st1 =
              Some (with_effects st1
                [HttpResponse {| status := 404; body := Failure "Session not found" |}]))
    as Habsent.
  { intros st1 Hgone. unfold JsMap.has in Hgone. unfold_handlers.
    by destruct (JsMap.get (clients st1) id). }
  destruct (JsMap.get (clients st) id) as [client|] eqn:Hget.
  - eexists. split; [by apply delete_registered_step |].
    split; [apply has_delete | apply Habsent, has_delete].
  - assert (JsMap.has (clients st) id = false) as Hgone
      by (unfold JsMap.has; by rewrite Hget).
    eexists. split; [by apply Habsent |]. split; [done | by apply Habsent].
Qed.

(** X11. Readiness is never taken back: whatever callback runs, a session that
    is ready stays ready for as long as it is registered. In particular
    a [disconnected] event that does not remove the session leaves it
    listed as "connected". *)
Theorem ready_until_removed copy ev st st' id :
  step copy ev st = Some st' ->
  is_ready st id = true ->
  is_ready st' id = true \/ JsMap.has (clients st') id = false.
Proof.
  unfold is_ready, JsMap.has. intros Hstep Hready.
  destruct (JsMap.get (clients st) id) as [client|] eqn:Hget; [| done].
  destruct (change_keeps_client st st' id client (step_change _ _ _ _ Hstep) Hget)
    as [-> | ->]; [left | by right].
  rewrite (step_info _ _ _ _ client Hstep).
  destruct ev; try done. by case_decide.
Qed.

Lemma ready_until_removed_witness :
  is_ready (after First [CreateSession "s1" "A" None; Ready 0 {| wid_user := "4915" |};
                         Disconnected 0 "NAVIGATION"]) "A" = true \/
  JsMap.has (clients (after First [CreateSession "s1" "A" None;
                                   Ready 0 {| wid_user := "4915" |};
                                   Disconnected 0 "NAVIGATION"])) "A" = false.
Proof.
  apply (ready_until_removed First (Disconnected 0 "NAVIGATION")
           (after First [CreateSession "s1" "A" None; Ready 0 {| wid_user := "4915" |}]));
    reflexivity.
Defined.

Lemma occurrences_get_none {V} (m : JsMap.t V) k :
  JsMap.get m k = None -> JsMap.occurrences m k = 0.
Proof.
  induction m as [|[k' v'] m IH]; simpl; [done |].
  destruct (String.eqb k' k); [done | apply IH].
Qed.

(** X12. Once the DELETE route has run for an id, the session cannot be
    reached: it is not listed, it is not ready, and a send-message
    request for it is answered NotFound without a call to the engine. *)
Theorem destroyed_is_unreachable copy st id st1 :
  step copy (DeleteSession id) st = Some st1 ->
  listed_for st1 id = 0 /\
  is_ready st1 id = false /\
  forall to message sendMessage,
    all_present (sendMessage_call id to message) = true ->
    send_message (sendMessage_call id to message) sendMessage st1 = (Normal NotFound, st1).
Proof.
  intros Hstep.
  assert (JsMap.get (clients st1) id = None) as Hgone.
  { destruct (JsMap.get (clients st) id) as [client|] eqn:Hget.
    - rewrite (delete_registered_step _ _ _ _ Hget) in Hstep. simplify_eq/=.
      apply get_delete_eq.
    - unfold_handlers. rewrite Hget in Hstep. by simplify_eq/=. }
  split_and!.
  - rewrite listed_for_occurrences. by apply occurrences_get_none.
  - unfold is_ready. by rewrite Hgone.
  - intros to message sendMessage Hvalid.
    rewrite (send_message_valid _ _ _ Hvalid). simpl. by rewrite Hgone.
Qed.

Lemma destroyed_is_unreachable_witness :
  listed_for (after First [CreateSession "s1" "A" None; DeleteSession "A"]) "A" = 0.
Proof.
  apply (destroyed_is_unreachable First (after First [CreateSession "s1" "A" None]) "A").
  reflexivity.
Defined.

Ltac not_among Hin :=
  repeat (apply elem_of_cons in Hin as [Hin|Hin]; [congruence |]);
  by apply elem_of_nil in Hin.

(** X13. When [createWhatsAppClient] throws, the first copy catches the
    exception, prints it and tells the requester
    [error_<id>] "Failed to create WhatsApp session"; the second copy has
    no [try] and the exception escapes the callback. In both copies the
    registry, the client objects and the pending promises stay as they
    were: no half-created session is left behind. *)
Theorem failed_construction st socket id e :
  JsMap.has (clients st) id = false ->
  step First (CreateSession socket id (Some e)) st =
    Some (with_effects st
            [ConsoleLog [LStr ("Creating new session for client: " +:+ id)];
             ConsoleError [LStr ("Error creating session for " +:+ id +:+ ":"); LErr e];
             SocketEmit socket ("error_" +:+ id) (PText "Failed to create WhatsApp session")]) /\
  step Second (CreateSession socket id (Some e)) st =
    Some (with_effects st
            [ConsoleLog [LStr ("Creating new session for client: " +:+ id)];
             UncaughtException e]).
Proof.
  intros Hfree. split; unfold_handlers; simpl; rewrite Hfree; simpl.
  all: f_equal; unfold with_effects; simpl; by rewrite <- ?app_assoc.
Qed.

Lemma failed_construction_witness :
  step Second (CreateSession "s1" "A" (Some (ErrorObject "EACCES"))) initial =
    Some (with_effects initial
            [ConsoleLog [LStr "Creating new session for client: A"];
             UncaughtException (ErrorObject "EACCES")]).
Proof.
  apply (failed_construction initial "s1" "A" (ErrorObject "EACCES")). reflexivity.
Defined.

Lemma first_copy_never_throws ev st st' e :
  step First ev st = Some st' ->
  UncaughtException e ∉ new_effects st st'.
Proof.
  intros H Hin. destruct ev; run_handlers H.
  all: revert Hin; tidy_out; intros Hin; not_among Hin.
Qed.

Lemma elem_of_insert_inv {A} (l : list A) i x y :
  x ∈ <[i:=y]> l -> x = y \/ x ∈ l.
Proof.
  revert i. induction l as [|a l IH]; intros [|i]; simpl; auto.
  - intros [->|Hin]%elem_of_cons; [by left | right; by apply list_elem_of_further].
  - intros [->|Hin]%elem_of_cons; [right; apply list_elem_of_here |].
    destruct (IH _ Hin); [by left | right; by apply list_elem_of_further].
Qed.

Lemma unhandled_needs_unwatched copy ev st st' e :
  step copy ev st = Some st' ->
  UnhandledRejection e ∈ new_effects st st' ->
  Some Unwatched ∈ promises st.
Proof.
  intros H Hin. destruct copy, ev; run_handlers H.
  all: revert Hin; tidy_out; intros Hin.
  all: first [not_among Hin | eapply list_elem_of_lookup_2; eassumption].
Qed.

Lemma unwatched_needs_delete copy ev st st' :
  step copy ev st = Some st' ->
  Some Unwatched ∈ promises st' ->
  Some Unwatched ∈ promises st \/ exists id, ev = DeleteSession id.
Proof.
  intros H Hin. destruct copy, ev; run_handlers H; eauto.
  all: repeat match type of Hin with
       | _ ∈ _ ++ _ => apply elem_of_app in Hin as [Hin|Hin]
       | _ ∈ <[_:=_]> _ => apply elem_of_insert_inv in Hin as [Hin|Hin]
       | _ ∈ [_] => apply list_elem_of_singleton in Hin
       end; eauto; try congruence.
Qed.

(** X14. The only promise that the server leaves without a reaction is the one
    of [client.destroy()] in the DELETE route: an unhandled rejection can
    occur only after a DELETE request, and without such a request no
    promise is ever pending unwatched. *)
Theorem unhandled_only_after_delete copy evs st :
  run copy evs initial = Some st ->
  (exists e, UnhandledRejection e ∈ out st) \/ Some Unwatched ∈ promises st ->
  exists id, DeleteSession id ∈ evs.
Proof.
  assert (forall evs st0 st,
            run copy evs st0 = Some st ->
            (exists e, UnhandledRejection e ∈ out st) \/ Some Unwatched ∈ promises st ->
            ((exists e, UnhandledRejection e ∈ out st0) \/ Some Unwatched ∈ promises st0) \/
            exists id, DeleteSession id ∈ evs) as Hgen.
  { clear. intros evs. induction evs as [|ev evs IH]; simpl; intros st0 st Hrun Hbad.
    - injection Hrun as <-. by left.
    - destruct (step copy ev st0) as [st1|] eqn:Hstep; [| done].
      destruct (IH _ _ Hrun Hbad) as [[[e He] | Hp] | [id Hid]].
      + rewrite (step_out _ _ _ _ Hstep) in He. apply elem_of_app in He as [He|He].
        * left. left. by exists e.
        * left. right. eauto using unhandled_needs_unwatched.
      + destruct (unwatched_needs_delete _ _ _ _ Hstep Hp) as [? | [id ->]].
        * left. by right.
        * right. exists id. apply list_elem_of_here.
      + right. exists id. by apply list_elem_of_further. }
  intros Hrun Hbad. destruct (Hgen _ _ _ Hrun Hbad) as [[[e He] | Hp] | ?]; [| | done].
  - by apply elem_of_nil in He.
  - by apply elem_of_nil in Hp.
Qed.

Lemma unhandled_only_after_delete_witness :
  exists id,
    DeleteSession id ∈ [CreateSession "s1" "A" None; DeleteSession "A";
                        Rejects 1 (ErrorObject "Target closed")].
Proof.
  apply (unhandled_only_after_delete First
           [CreateSession "s1" "A" None; DeleteSession "A";
            Rejects 1 (ErrorObject "Target closed")]
           (after First [CreateSession "s1" "A" None; DeleteSession "A";
                         Rejects 1 (ErrorObject "Target closed")]));
    [reflexivity |].
  left. exists (ErrorObject "Target closed"). vm_compute.
  repeat first [apply list_elem_of_here | apply list_elem_of_further].
Defined.

Lemma run_never_throws evs st0 st e :
  run First evs st0 = Some st ->
  UncaughtException e ∈ out st -> UncaughtException e ∈ out st0.
Proof.
  revert st0. induction evs as [|ev evs IH]; simpl; intros st0 Hrun Hin.
  - by injection Hrun as <-.
  - destruct (step First ev st0) as [st1|] eqn:Hstep; [| done].
    pose proof (IH _ Hrun Hin) as Hin1.
    rewrite (step_out _ _ _ _ Hstep) in Hin1. apply elem_of_app in Hin1 as [?|Hnew]; [done |].
    by destruct (first_copy_never_throws _ _ _ _ Hstep Hnew).
Qed.

(** X15. The first copy never has an uncaught exception: every callback that
    can throw does so inside a [try]. *)
Theorem first_copy_no_uncaught st e :
  reachable First st -> UncaughtException e ∉ out st.
Proof.
  intros [evs Hrun] Hin. apply (run_never_throws _ _ _ _ Hrun) in Hin.
  by apply elem_of_nil in Hin.
Qed.

Lemma first_copy_no_uncaught_witness :
  out (after First [CreateSession "s1" "A" (Some (ErrorObject "EACCES"))]) =
    [ConsoleLog [LStr "Creating new session for client: A"];
     ConsoleError [LStr "Error creating session for A:"; LErr (ErrorObject "EACCES")];
     SocketEmit "s1" "error_A" (PText "Failed to create WhatsApp session")] /\
  UncaughtException (ErrorObject "EACCES")
    ∉ out (after First [CreateSession "s1" "A" (Some (ErrorObject "EACCES"))]).
Proof.
  split; [reflexivity |].
  apply (first_copy_no_uncaught
           (after First [CreateSession "s1" "A" (Some (ErrorObject "EACCES"))])).
  by exists [CreateSession "s1" "A" (Some (ErrorObject "EACCES"))].
Defined.

(** X16. [client.destroy()] is called only by a callback that removes the
    session it is about: after any callback that tears a client down, the
    id that the callback concerns is not registered. A [disconnected]
    event tears nothing down, even when it removes the session. *)
Theorem teardown_only_with_removal copy ev st st' client :
  step copy ev st = Some st' ->
  EngineDestroy client ∈ new_effects st st' ->
  (exists id, concerns st ev = Some id /\ JsMap.has (clients st') id = false) /\
  (forall c reason, ev <> Disconnected c reason).
Proof.
  intros H Hin. destruct copy, ev; run_handlers H.
  all: revert Hin; tidy_out; intros Hin.
  all: try (exfalso; not_among Hin).
  all: (split; [| done]); eexists; simpl;
    repeat match goal with Hx : _ !! _ = Some _ |- _ => rewrite Hx end; simpl;
    (split; [reflexivity | apply has_delete]).
Qed.

Lemma teardown_only_with_removal_witness :
  exists id,
    concerns (after First [CreateSession "s1" "A" None]) (DeleteSession "A") = Some id /\
    JsMap.has (clients (after First [CreateSession "s1" "A" None; DeleteSession "A"])) id
      = false.
Proof.
  apply (teardown_only_with_removal First (DeleteSession "A")
           (after First [CreateSession "s1" "A" None])
           (after First [CreateSession "s1" "A" None; DeleteSession "A"]) 0);
    [reflexivity |].
  vm_compute. apply list_elem_of_here.
Defined.

(** X17. The callbacks of a client object speak to the subscribers only by
    broadcast, and only under the names [qr_<id>], [ready_<id>],
    [error_<id>], [disconnected_<id>] and [message_<id>] of the id they
    close over: they emit nothing to a single socket, answer no request
    and start no client. *)
Theorem engine_events_are_scoped copy ev st st' client c :
  step copy ev st = Some st' ->
  engine_event ev = Some client ->
  heap st !! client = Some c ->
  Forall (fun e =>
            match e with
            | IoEmit name _ => name ∈ event_names (client_id c)
            | SocketEmit _ _ _ | HttpResponse _ | EngineInitialize _ => False
            | _ => True
            end) (new_effects st st').
Proof.
  intros H Hev Hc. destruct copy, ev; try done; simpl in Hev; simplify_eq.
  all: run_handlers H; tidy_out.
  all: repeat (apply Forall_cons; split); try apply Forall_nil; try exact I.
  all: unfold event_names; rewrite !fmap_cons;
    repeat first [apply list_elem_of_here | apply list_elem_of_further].
Qed.

Lemma engine_events_are_scoped_witness :
  Forall (fun e =>
            match e with
            | IoEmit name _ => name ∈ event_names "A"
            | SocketEmit _ _ _ | HttpResponse _ | EngineInitialize _ => False
            | _ => True
            end)
    (new_effects (after First [CreateSession "s1" "A" None])
       (after First [CreateSession "s1" "A" None; Qr 0 "2@abc"])).
Proof.
  apply (engine_events_are_scoped First (Qr 0 "2@abc")
           (after First [CreateSession "s1" "A" None])
           (after First [CreateSession "s1" "A" None; Qr 0 "2@abc"])
           0 {| client_id := "A"; info := None |}); reflexivity.
Defined.

(** X18. The normalization never alters what it is given: the input is a
    prefix of the output, the output always contains "@c.us", is never
    empty and is longer by five characters at most. *)
Theorem formattedNumber_extends (s : string) :
  String.prefix s (formattedNumber s) = true /\
  Js.includes (formattedNumber s) "@c.us" = true /\
  Js.truthy (Some (formattedNumber s)) = true /\
  String.length s <= String.length (formattedNumber s) <= String.length s + 5.
Proof.
  unfold formattedNumber. destruct (Js.includes s "@c.us") eqn:E.
  - split_and!; [apply prefix_refl | done | | lia | lia].
    destruct s; [done | done].
  - split_and!; [apply prefix_append | apply includes_append | apply truthy_append | |];
      rewrite length_append; simpl; lia.
Qed.

(** An inbound message is republished to all subscribers under
    [message_<id>] with sender, body and timestamp as the engine gave
    them, the sender normalized as [phoneNumber], and as [myNumber] the
    account of the session if the client is ready and [undefined] if it
    is not. Both copies do the same; the registry is not consulted, so
    this holds also for a client that is no longer registered. *)
Theorem inbound_republished copy st client c message :
  heap st !! client = Some c ->
  step copy (Incoming client message) st =
    Some (with_effects st
            [ConsoleLog [LStr ("[" +:+ client_id c +:+ "] Message received:");
                         LStr (msg_body message)];
             IoEmit ("message_" +:+ client_id c)
               (PInbound {| in_from := msg_from message;
                            in_body := msg_body message;
                            in_timestamp := msg_timestamp message;
                            in_phoneNumber := formattedNumber (msg_from message);
                            in_myNumber := wid_user <$> info c |})]).
Proof.
  intros Hc. destruct copy; unfold_handlers; rewrite Hc; simpl;
    unfold info_of; rewrite Hc; simpl; f_equal; unfold with_effects, inbound; simpl;
    by rewrite <- app_assoc.
Qed.

(** X19. The [ready] event announces the account that the engine has just
    stored, and a message that arrives afterwards carries the same
    account as [myNumber]. *)
Theorem ready_then_message copy st client c i message :
  heap st !! client = Some c ->
  exists st1 st2,
    step copy (Ready client i) st = Some st1 /\
    new_effects st st1 =
      [ConsoleLog [LStr ("[" +:+ client_id c +:+ "] Client is ready!")];
       IoEmit ("ready_" +:+ client_id c) (PUser (Some (wid_user i)))] /\
    step copy (Incoming client message) st1 = Some st2 /\
    exists m, IoEmit ("message_" +:+ client_id c) (PInbound m) ∈ new_effects st1 st2 /\
              in_myNumber m = Some (wid_user i).
Proof.
  intros Hc.
  assert (exists st1, step copy (Ready client i) st = Some st1 /\
            heap st1 !! client = Some {| client_id := client_id c; info := Some i |} /\
            new_effects st st1 =
              [ConsoleLog [LStr ("[" +:+ client_id c +:+ "] Client is ready!")];
               IoEmit ("ready_" +:+ client_id c) (PUser (Some (wid_user i)))])
    as (st1 & Hstep1 & Hc1 & Hnew).
  { unfold_handlers. rewrite Hc. simpl. unfold info_of. simpl.
    rewrite list_lookup_alter_eq, Hc. simpl. eexists. split_and!; [reflexivity | |].
    - simpl. by rewrite list_lookup_alter_eq, Hc.
    - by tidy_out. }
  exists st1. eexists. split_and!; [done | done | by apply inbound_republished |].
  eexists. split; [tidy_out; apply list_elem_of_further, list_elem_of_here | reflexivity].
Qed.

Lemma ready_then_message_witness :
  exists st1 st2,
    step Second (Ready 0 {| wid_user := "4915" |}) (after Second [CreateSession "s1" "A" None])
      = Some st1 /\
    new_effects (after Second [CreateSession "s1" "A" None]) st1 =
      [ConsoleLog [LStr "[A] Client is ready!"]; IoEmit "ready_A" (PUser (Some "4915"))] /\
    step Second (Incoming 0 {| msg_id := "m"; msg_body := "hello"; msg_from := "1555";
                               msg_timestamp := 7 |}) st1 = Some st2 /\
    exists m, IoEmit "message_A" (PInbound m) ∈ new_effects st1 st2 /\
              in_myNumber m = Some "4915".
Proof.
  apply (ready_then_message Second (after Second [CreateSession "s1" "A" None]) 0
           {| client_id := "A"; info := None |} {| wid_user := "4915" |}).
  reflexivity.
Defined.

(** X20. [POST /api/chat-history], path by path. A request without a non-empty
    client id and phone number is answered 400 before anything else; an
    unknown client 404; a client that is not ready 400. Otherwise the
    chat of the normalized number is asked for and then its last 100
    messages; a rejection of either call is answered 500 with the message
    of the error (a fixed text for a rejection that is not an [Error]),
    and after a rejection of the first call the second is not made. On
    success the answer holds one entry for each message, in the same
    order, with its id, sender, body and timestamp. The state is changed
    in no case but for the effects. *)
Theorem chat_history_outcomes st req getChatById :
  let clientId := Js.str (V1.ch_clientId req) in
  let number := formattedNumber (Js.str (V1.ch_phoneNumber req)) in
  V1.chat_history req getChatById st =
    if negb (Js.truthy (V1.ch_clientId req)) || negb (Js.truthy (V1.ch_phoneNumber req))
    then (Normal {| status := 400;
                    body := Failure "Client ID and phone number are required" |}, st)
    else
      match JsMap.get (clients st) clientId with
      | None => (Normal NotFound, st)
      | Some client =>
          match info_of (heap st) client with
          | None => (Normal NotReady, st)
          | Some _ =>
              match getChatById number with
              | Rejected error =>
                  (Normal (SendFailure (message_or error "Failed to fetch chat history")),
                   with_effects st
                     [EngineGetChatById client number;
                      ConsoleError [LStr "Error fetching chat history:"; LErr error]])
              | Resolved (Rejected error) =>
                  (Normal (SendFailure (message_or error "Failed to fetch chat history")),
                   with_effects st
                     [EngineGetChatById client number;
                      EngineFetchMessages client 100;
                      ConsoleError [LStr "Error fetching chat history:"; LErr error]])
              | Resolved (Resolved messages) =>
                  (Normal {| status := 200;
                             body := History (V1.history_entry <$> messages) |},
                   with_effects st
                     [EngineGetChatById client number; EngineFetchMessages client 100])
              end
          end
      end.
Proof.
  cbv zeta. unfold V1.chat_history, try_catch.
  destruct (negb (Js.truthy (V1.ch_clientId req)) || negb (Js.truthy (V1.ch_phoneNumber req)));
    [done |].
  unfold_handlers. simpl.
  destruct (JsMap.get (clients st) (Js.str (V1.ch_clientId req))) as [client|]; [| done].
  simpl. destruct (info_of (heap st) client); [| done].
  simpl. destruct (getChatById _) as [[messages|e]|e]; simpl; unfold with_effects; simpl;
    by rewrite <- ?app_assoc.
Qed.

(** X21. The history that is returned has as many entries as the engine gave
    messages, and the n-th entry is made from the n-th message. *)
Theorem chat_history_keeps_messages st req getChatById client i messages :
  Js.truthy (V1.ch_clientId req) = true ->
  Js.truthy (V1.ch_phoneNumber req) = true ->
  JsMap.get (clients st) (Js.str (V1.ch_clientId req)) = Some client ->
  info_of (heap st) client = Some i ->
  getChatById (formattedNumber (Js.str (V1.ch_phoneNumber req))) = Resolved (Resolved messages) ->
  exists entries,
    (V1.chat_history req getChatById st).1 =
      Normal {| status := 200; body := History entries |} /\
    length entries = length messages /\
    forall n msg, messages !! n = Some msg ->
      entries !! n = Some {| he_id := msg_id msg; he_from := msg_from msg;
                             he_body := msg_body msg; he_timestamp := msg_timestamp msg |}.
Proof.
  intros Hid Hnum Hget Hinfo Hchat. rewrite chat_history_outcomes. cbv zeta.
  rewrite Hid, Hnum, Hget, Hinfo, Hchat. simpl.
  eexists. split_and!; [reflexivity | by rewrite length_fmap |].
  intros n msg Hn. by rewrite list_lookup_fmap, Hn.
Qed.

Lemma chat_history_keeps_messages_witness :
  let m1 := {| msg_id := "m1"; msg_body := "hello"; msg_from := "1555@c.us";
               msg_timestamp := 7 |} in
  let st := after First [CreateSession "s1" "A" None; Ready 0 {| wid_user := "4915" |}] in
  exists entries,
    (V1.chat_history {| V1.ch_clientId := Some "A"; V1.ch_phoneNumber := Some "1555" |}
       (fun _ => Resolved (Resolved [m1])) st).1 =
      Normal {| status := 200; body := History entries |} /\
    length entries = 1.
Proof.
  intros m1 st.
  destruct (chat_history_keeps_messages st
              {| V1.ch_clientId := Some "A"; V1.ch_phoneNumber := Some "1555" |}
              (fun _ => Resolved (Resolved [m1])) 0 {| wid_user := "4915" |} [m1])
    as (entries & H1 & H2 & _); try reflexivity.
  by exists entries.
Defined.

